(** * OrderController: order mutation workflow and coupon application

    A shallow embedding of the admin [OrderController] (an AdonisJS
    resourceful controller over Lucid models) together with the pieces of
    the persistence layer it talks to.

    Handlers are [async] functions whose effects are reads and writes of
    the relational store, so they are embedded in a small state-and-
    exception monad over a [World]: the committed tables, the transactions
    opened so far, the clock read by [new Date()], and the outcome the
    environment has in stock for each awaited I/O call.  A JavaScript
    [throw] keeps the state reached so far, hence the result type pairs
    the outcome with the final world instead of dropping it. *)

From Stdlib Require Import ZArith List String Ascii Bool Arith Lia.
From Stdlib Require Import DecimalString DecimalZ DecimalPos.
Import ListNotations.

Local Open Scope string_scope.
Local Open Scope list_scope.
Local Open Scope Z_scope.

(** ** Rows of the persisted tables *)

(** [request.all()] yields [undefined] for a field the payload lacks; such
    fields are [None]. *)
Record OrderRow := mkOrder {
  o_id         : Z;
  o_user_id    : option Z;
  o_status     : option string;
  o_deleted_at : option Z
}.

(** An entry of the request's [items] array: product reference and
    quantity. *)
Record ItemPayload := mkItem {
  i_product  : string;
  i_quantity : Z
}.

Record OrderItemRow := mkOrderItem {
  oi_id       : Z;
  oi_order_id : Z;
  oi_payload  : ItemPayload
}.

Record CouponRow := mkCoupon {
  c_id        : Z;
  c_code      : string;
  c_recursive : bool
}.

Record DiscountRow := mkDiscount {
  d_id         : Z;
  d_order_id   : Z;
  d_coupon_id  : Z;
  d_deleted_at : option Z
}.

Record Db := mkDb {
  orders      : list OrderRow;
  order_items : list OrderItemRow;
  coupons     : list CouponRow;
  discounts   : list DiscountRow
}.

Definition empty_db : Db := mkDb [] [] [] [].

Definition set_orders (f : list OrderRow -> list OrderRow) (d : Db) : Db :=
  mkDb (f (orders d)) (order_items d) (coupons d) (discounts d).

Definition set_order_items (f : list OrderItemRow -> list OrderItemRow) (d : Db) : Db :=
  mkDb (orders d) (f (order_items d)) (coupons d) (discounts d).

Definition set_discounts (f : list DiscountRow -> list DiscountRow) (d : Db) : Db :=
  mkDb (orders d) (order_items d) (coupons d) (f (discounts d)).

(** Primary keys come from an auto-increment column: the next key is one
    above every key of the table. *)
Definition fresh_id (ids : list Z) : Z := 1 + fold_right Z.max 0 ids.

Definition payload_eqb (a b : ItemPayload) : bool :=
  String.eqb (i_product a) (i_product b) && Z.eqb (i_quantity a) (i_quantity b).

(** ** Exceptions *)

(** A JavaScript [Error]: [error.stack] starts with the name and the
    message and goes on with the call frames. *)
Record Exn := mkExn {
  e_name    : string;
  e_message : string;
  e_frames  : string
}.

Definition e_stack (e : Exn) : string :=
  (e_name e ++ ": " ++ e_message e ++ e_frames e)%string.

(** Raised by Lucid's [findOrFail] / [findByOrFail] / [firstOrFail]. *)
Definition ModelNotFound (model : string) : Exn :=
  mkExn "ModelNotFoundException"
        ("E_MISSING_DATABASE_ROW: Cannot find database row for " ++ model ++ " model")%string
        "
    at Function.findOrFail".

(** Reading an identifier that no enclosing scope binds. *)
Definition ReferenceError (ident frame : string) : Exn :=
  mkExn "ReferenceError" (ident ++ " is not defined")%string ("
    at OrderController." ++ frame)%string.

(** Issuing a query on a transaction that was committed or rolled back. *)
Definition TransactionComplete : Exn :=
  mkExn "Error" "Transaction query already complete" "
    at Transaction.query".

Definition TypeError (msg : string) : Exn :=
  mkExn "TypeError" msg "
    at OrderTransformer".

(** ** The world a handler runs in *)

Inductive TrxState := Open | Committed | RolledBack.

(** A transaction works on its own copy of the tables; readers of the
    committed store see nothing of it before [commit]. *)
Record Trx := mkTrx {
  t_db    : Db;
  t_state : TrxState
}.

Record World := mkWorld {
  committed : Db;
  (** transactions opened so far; a handle is a position in this list *)
  trxs      : list Trx;
  (** what each coming I/O call meets: [None] lets it through, [Some e]
      makes it reject with [e]; an exhausted plan lets everything through *)
  faults    : list (option Exn);
  (** the instant [new Date()] reads *)
  now       : Z;
  (** how many store writes of a call that was started but not awaited
      reach its transaction before the caller's COMMIT does *)
  landed    : nat
}.

Definition with_committed (d : Db) (w : World) : World :=
  mkWorld d (trxs w) (faults w) (now w) (landed w).

Definition with_trxs (l : list Trx) (w : World) : World :=
  mkWorld (committed w) l (faults w) (now w) (landed w).

Definition with_faults (f : list (option Exn)) (w : World) : World :=
  mkWorld (committed w) (trxs w) f (now w) (landed w).

(** ** The handler monad *)

Inductive Result (A : Type) :=
| Ok (a : A)
| Throw (e : Exn).
Arguments Ok {A} a.
Arguments Throw {A} e.

Definition M (A : Type) : Type := World -> Result A * World.

Definition ret {A} (a : A) : M A := fun w => (Ok a, w).

Definition throw {A} (e : Exn) : M A := fun w => (Throw e, w).

Definition bind {A B} (c : M A) (k : A -> M B) : M B :=
  fun w => match c w with
           | (Ok a, w') => k a w'
           | (Throw e, w') => (Throw e, w')
           end.

(** [try { c } catch (error) { h error }] *)
Definition try_catch {A} (c : M A) (h : Exn -> M A) : M A :=
  fun w => match c w with
           | (Ok a, w') => (Ok a, w')
           | (Throw e, w') => h e w'
           end.

Declare Scope handler_scope.
Delimit Scope handler_scope with handler.
Notation "x <- c ;; k" := (bind c (fun x => k))
  (at level 61, c at next level, right associativity) : handler_scope.
Notation "c ;; k" := (bind c (fun _ => k))
  (at level 61, right associativity) : handler_scope.
Local Open Scope handler_scope.

Definition gets {A} (f : World -> A) : M A := fun w => (Ok (f w), w).

Definition modify (f : World -> World) : M unit := fun w => (Ok tt, f w).

(** One awaited round trip to a collaborator (database, transformer):
    it takes the next outcome of the plan. *)
Definition io : M unit :=
  fun w => match faults w with
           | [] => (Ok tt, w)
           | None :: rest => (Ok tt, with_faults rest w)
           | Some e :: rest => (Throw e, with_faults rest w)
           end.

Fixpoint forM_ {A} (l : list A) (f : A -> M unit) : M unit :=
  match l with
  | [] => ret tt
  | a :: l' => f a ;; forM_ l' f
  end.

(** ** Text helpers *)

(** [String.prototype.toUpperCase] on the ASCII letters (coupon codes are
    ASCII; other bytes are left as they are). *)
Definition upper_ascii (c : ascii) : ascii :=
  let n := nat_of_ascii c in
  if (97 <=? n)%nat && (n <=? 122)%nat then ascii_of_nat (n - 32) else c.

Definition lower_ascii (c : ascii) : ascii :=
  let n := nat_of_ascii c in
  if (65 <=? n)%nat && (n <=? 90)%nat then ascii_of_nat (n + 32) else c.

Fixpoint toUpperCase (s : string) : string :=
  match s with
  | EmptyString => EmptyString
  | String c s' => String (upper_ascii c) (toUpperCase s')
  end.

(** SQL [ILIKE]: the whole subject must match the pattern, letters compare
    without case, [%] stands for any run of characters and [_] for any
    single one. *)
Fixpoint ilike (pattern subject : string) {struct pattern} : bool :=
  match pattern with
  | EmptyString =>
      match subject with EmptyString => true | String _ _ => false end
  | String p rest =>
      if Ascii.eqb p "%"%char then
        (fix any_run (s : string) : bool :=
           ilike rest s ||
           match s with
           | EmptyString => false
           | String _ s' => any_run s'
           end) subject
      else
        match subject with
        | EmptyString => false
        | String c s' =>
            (Ascii.eqb p "_"%char || Ascii.eqb (lower_ascii p) (lower_ascii c))
            && ilike rest s'
        end
  end.

(** The text of an integer key, as the database casts it for [ILIKE]. *)
Definition id_text (id : Z) : string := NilEmpty.string_of_int (Z.to_int id).

(** JavaScript truthiness of an optional string field: [undefined] and
    the empty string are falsy. *)
Definition truthy (v : option string) : bool :=
  match v with
  | Some s => negb (String.eqb s "")
  | None => false
  end.

Definition opt_string_eqb (a b : option string) : bool :=
  match a, b with
  | Some x, Some y => String.eqb x y
  | None, None => true
  | _, _ => false
  end.

(** ** Responses *)

Record OrderView := mkView {
  v_order     : OrderRow;
  v_items     : list OrderItemRow;
  v_discounts : list DiscountRow
}.

Record Page := mkPage {
  p_total   : nat;
  p_perPage : nat;
  p_page    : nat;
  p_data    : list OrderView
}.

(** What [query.paginate(page, limit)] resolves to *)
Record RawPage := mkRawPage {
  rp_total   : nat;
  rp_perPage : nat;
  rp_page    : nat;
  rp_rows    : list OrderRow
}.

Record Info := mkInfo {
  info_message : string;
  info_success : bool
}.

Inductive Body :=
| BodyPage (p : Page)
| BodyOrder (v : OrderView)
| BodyApply (order : OrderRow) (info : Info)
| BodyDiscount (d : DiscountRow)
| BodyError (message error : string).

(** [response.status(code).send(body)] *)
Record Response := mkResponse {
  r_status : Z;
  r_body   : Body
}.

(** ** Database: the transaction provider *)

Module Database.

Fixpoint set_nth {A} (n : nat) (x : A) (l : list A) : list A :=
  match l, n with
  | [], _ => []
  | _ :: l', O => x :: l'
  | y :: l', S n' => y :: set_nth n' x l'
  end.

Definition trx_state (w : World) (h : nat) : option TrxState :=
  option_map t_state (nth_error (trxs w) h).

(** [Database.beginTransaction()]: the new transaction starts from the
    committed tables. *)
Definition beginTransaction : M nat :=
  io ;;
  w <- gets (fun w => w) ;;
  modify (with_trxs (trxs w ++ [mkTrx (committed w) Open])) ;;
  ret (List.length (trxs w)).

(** A query issued through [trx]: refused once the transaction is
    complete, otherwise run against the transaction's own tables. *)
Definition query {A} (h : nat) (q : Db -> A * Db) : M A :=
  io ;;
  w <- gets (fun w => w) ;;
  match nth_error (trxs w) h with
  | Some (mkTrx d Open) =>
      let (a, d') := q d in
      modify (with_trxs (set_nth h (mkTrx d' Open) (trxs w))) ;;
      ret a
  | _ => throw TransactionComplete
  end.

(** [trx.commit()]: the transaction's tables become the committed ones. *)
Definition commit (h : nat) : M unit :=
  io ;;
  w <- gets (fun w => w) ;;
  match nth_error (trxs w) h with
  | Some (mkTrx d Open) =>
      modify (fun w => with_committed d
                         (with_trxs (set_nth h (mkTrx d Committed) (trxs w)) w))
  | _ => throw TransactionComplete
  end.

(** [trx.rollback()]: an open transaction is dropped with everything
    written through it; the store contract lets that always succeed.  A
    transaction that is already complete refuses the query. *)
Definition rollback (h : nat) : M unit :=
  w <- gets (fun w => w) ;;
  match nth_error (trxs w) h with
  | Some (mkTrx d Open) =>
      modify (with_trxs (set_nth h (mkTrx d RolledBack) (trxs w)))
  | _ => throw TransactionComplete
  end.

(** A query on the default connection: it reads and writes the
    committed tables at once. *)
Definition direct {A} (q : Db -> A * Db) : M A :=
  io ;;
  w <- gets (fun w => w) ;;
  let (a, d') := q (committed w) in
  modify (with_committed d') ;;
  ret a.

End Database.

(** ** Lucid models *)

Module Order.

Definition lookup (id : Z) (d : Db) : option OrderRow :=
  find (fun o => o_id o =? id) (orders d).

Definition insert (user_id : option Z) (status : option string) (d : Db)
  : OrderRow * Db :=
  let o := mkOrder (fresh_id (map o_id (orders d))) user_id status None in
  (o, set_orders (fun l => l ++ [o]) d).

Definition write (o : OrderRow) (d : Db) : unit * Db :=
  (tt, set_orders (map (fun r => if o_id r =? o_id o then o else r)) d).

(** [Order.create({ user_id, status }, trx)] *)
Definition create (user_id : option Z) (status : option string) (trx : nat)
  : M OrderRow :=
  Database.query trx (insert user_id status).

(** [Order.find(id)]: [null] when no row has the key. *)
Definition find (id : Z) : M (option OrderRow) :=
  Database.direct (fun d => (lookup id d, d)).

(** [Order.findOrFail(id)]: a lookup by primary key; the call passes no
    condition on [deleted_at]. *)
Definition findOrFail (id : Z) : M OrderRow :=
  r <- find id ;;
  match r with
  | Some o => ret o
  | None => throw (ModelNotFound "Order")
  end.

(** [order.merge({ user_id, status })]: a field the request lacks is
    [undefined] and is dropped from the UPDATE, so the column keeps its
    value. *)
Definition merge (o : OrderRow) (user_id : option Z) (status : option string)
  : OrderRow :=
  mkOrder (o_id o)
          (match user_id with Some u => Some u | None => o_user_id o end)
          (match status with Some s => Some s | None => o_status o end)
          (o_deleted_at o).

Definition merge_deleted_at (o : OrderRow) (t : Z) : OrderRow :=
  mkOrder (o_id o) (o_user_id o) (o_status o) (Some t).

(** [order.save(trx)] and [order.save()] *)
Definition save (o : OrderRow) (trx : option nat) : M unit :=
  match trx with
  | Some h => Database.query h (write o)
  | None => Database.direct (write o)
  end.

Definition active_discounts (id : Z) (d : Db) : list DiscountRow :=
  filter (fun r => (d_order_id r =? id) &&
                   match d_deleted_at r with None => true | Some _ => false end)
         (discounts d).

(** Modelled from the spec: the relation [coupons()] belongs to the Order
    model, which is defined outside the controller;
    [order.coupons().getCount()] is the number of non-deleted Discount
    rows on the order. *)
Definition coupons_getCount (o : OrderRow) : M nat :=
  Database.direct (fun d => (List.length (active_discounts (o_id o) d), d)).

Definition items_of (id : Z) (d : Db) : list OrderItemRow :=
  filter (fun r => oi_order_id r =? id) (order_items d).

(** [Order.query().where(...).paginate(page, limit)]: the rows that match,
    [limit] of them from offset [limit * (page - 1)]. *)
Definition paginate (matches : OrderRow -> bool) (page limit : nat) : M RawPage :=
  Database.direct
    (fun d => let rows := filter matches (orders d) in
              (mkRawPage (List.length rows) limit page
                         (firstn limit (skipn (limit * (page - 1))%nat rows)), d)).

End Order.

Module Coupon.

(** [Coupon.findByOrFail('code', value)] *)
Definition findByOrFail_code (value : string) : M CouponRow :=
  r <- Database.direct
         (fun d => (find (fun c => String.eqb (c_code c) value) (coupons d), d)) ;;
  match r with
  | Some c => ret c
  | None => throw (ModelNotFound "Coupon")
  end.

End Coupon.

Module Discount.

Definition lookup (id : Z) (d : Db) : option DiscountRow :=
  find (fun r => d_id r =? id) (discounts d).

Definition lookup_pair (order_id coupon_id : Z) (d : Db) : option DiscountRow :=
  find (fun r => (d_order_id r =? order_id) && (d_coupon_id r =? coupon_id))
       (discounts d).

Definition insert (order_id coupon_id : Z) (d : Db) : DiscountRow * Db :=
  let r := mkDiscount (fresh_id (map d_id (discounts d))) order_id coupon_id None in
  (r, set_discounts (fun l => l ++ [r]) d).

Definition write (r : DiscountRow) (d : Db) : unit * Db :=
  (tt, set_discounts (map (fun x => if d_id x =? d_id r then r else x)) d).

(** [Discount.findOrCreate({ order_id, coupon_id })]: the first row with
    these two columns, and only when there is none a new row. *)
Definition findOrCreate (order_id coupon_id : Z) : M DiscountRow :=
  r <- Database.direct (fun d => (lookup_pair order_id coupon_id d, d)) ;;
  match r with
  | Some row => ret row
  | None => Database.direct (insert order_id coupon_id)
  end.

(** [Discount.findOrFail(discount_id)]: a lookup by primary key; the call
    passes no condition on [deleted_at]. *)
Definition findOrFail (id : Z) : M DiscountRow :=
  r <- Database.direct (fun d => (lookup id d, d)) ;;
  match r with
  | Some row => ret row
  | None => throw (ModelNotFound "Discount")
  end.

(** [discount.merge({ deleted_at })] *)
Definition merge_deleted_at (r : DiscountRow) (t : Z) : DiscountRow :=
  mkDiscount (d_id r) (d_order_id r) (d_coupon_id r) (Some t).

(** [discount.save()] *)
Definition save (r : DiscountRow) : M unit := Database.direct (write r).

End Discount.

(** ** The order service *)

Inductive ItemWrite :=
| DeleteItem (id : Z)
| InsertItem (order_id : Z) (p : ItemPayload).

Module Service.

Definition insert_item (order_id : Z) (p : ItemPayload) (d : Db) : unit * Db :=
  (tt, set_order_items
         (fun l => l ++ [mkOrderItem (fresh_id (map oi_id l)) order_id p]) d).

Definition delete_item (id : Z) (d : Db) : unit * Db :=
  (tt, set_order_items (filter (fun r => negb (oi_id r =? id))) d).

Definition apply_write (wr : ItemWrite) (d : Db) : unit * Db :=
  match wr with
  | DeleteItem id => delete_item id d
  | InsertItem order_id p => insert_item order_id p d
  end.

Definition apply_writes (writes : list ItemWrite) (d : Db) : Db :=
  fold_left (fun acc wr => snd (apply_write wr acc)) writes d.

(** Modelled from the spec: [syncItems] belongs to the OrderService,
    which is defined outside the controller; it inserts one OrderItem per
    entry of [items], through the service's transaction. *)
Definition syncItems (order : OrderRow) (trx : nat) (items : list ItemPayload)
  : M unit :=
  forM_ items (fun p => Database.query trx (insert_item (o_id order) p)).

Fixpoint dedup (l : list ItemPayload) : list ItemPayload :=
  match l with
  | [] => []
  | p :: l' => p :: filter (fun q => negb (payload_eqb p q)) (dedup l')
  end.

(** Modelled from the spec: [syncUpdateItems] belongs to the
    OrderService, which is defined outside the controller; when [items]
    is provided it reconciles the order's rows with the list: rows whose
    entry is gone are deleted, entries without a row are inserted, the
    others are left as they are.  These are the writes it issues, in
    order. *)
Definition syncUpdateItems_writes (order : OrderRow)
    (items : option (list ItemPayload)) (d : Db) : list ItemWrite :=
  match items with
  | None => []
  | Some target =>
      let mine := Order.items_of (o_id order) d in
      map (fun r => DeleteItem (oi_id r))
          (filter (fun r => negb (existsb (payload_eqb (oi_payload r)) target)) mine)
      ++ map (InsertItem (o_id order))
          (filter (fun p => negb (existsb (fun r => payload_eqb p (oi_payload r)) mine))
                  (dedup target))
  end.

(** [service.syncUpdateItems(items)] with no [await]: the call returns a
    promise at once and the caller goes on.  Of the writes the call
    issues, the first [landed] reach the open transaction ahead of the
    caller's COMMIT; the others meet a complete transaction and their
    rejection is nobody's to handle. *)
Definition syncUpdateItems_unawaited (order : OrderRow) (trx : nat)
    (items : option (list ItemPayload)) : M unit :=
  w <- gets (fun w => w) ;;
  match nth_error (trxs w) trx with
  | Some (mkTrx d Open) =>
      let writes := firstn (landed w) (syncUpdateItems_writes order items d) in
      modify (with_trxs (Database.set_nth trx (mkTrx (apply_writes writes d) Open)
                                          (trxs w)))
  | _ => ret tt
  end.

(** [service.canApplyDiscount(coupon)]: the validity check of the
    pricing side, an opaque predicate [eligible] over the stored data,
    the order and the coupon. *)
Definition canApplyDiscount (eligible : Db -> OrderRow -> CouponRow -> bool)
    (order : OrderRow) (coupon : CouponRow) : M bool :=
  Database.direct (fun d => (eligible d order coupon, d)).

End Service.

(** ** The transformer stage *)

Module Transformer.

(** The order with the relations named in [include(...)], as the
    committed store has them. *)
Definition view (with_items with_discounts : bool) (o : OrderRow) (d : Db)
  : OrderView :=
  mkView o
         (if with_items then Order.items_of (o_id o) d else [])
         (if with_discounts
          then filter (fun r => d_order_id r =? o_id o) (discounts d)
          else []).

(** [transform.include(...).item(order, Transformer)] *)
Definition item (with_items with_discounts : bool) (o : option OrderRow)
  : M OrderView :=
  match o with
  | Some row => Database.direct (fun d => (view with_items with_discounts row d, d))
  | None => throw (TypeError "Cannot read property 'id' of null")
  end.

(** [transform.include('user,items').paginate(rows, Transformer)] *)
Definition paginate (rows : RawPage) : M Page :=
  Database.direct
    (fun d => (mkPage (rp_total rows) (rp_perPage rows) (rp_page rows)
                      (map (fun o => view true false o d) (rp_rows rows)), d)).

End Transformer.

(** ** The controller *)

(** [request.all()] of the order endpoints *)
Record OrderRequest := mkRequest {
  rq_user_id : option Z;
  rq_items   : option (list ItemPayload);
  rq_status  : option string
}.

Module OrderController.

Definition not_performed (error : Exn) : Response :=
  mkResponse 400 (BodyError "This request not performed" (e_stack error)).

(** [where('status', status)], reached with a truthy [status] only *)
Definition status_is (status : option string) (o : OrderRow) : bool :=
  opt_string_eqb (o_status o) status.

(** The template literal [`${id}`] *)
Definition template (v : option string) : string :=
  match v with Some s => s | None => "undefined" end.

(** [where('id', 'ILIKE', `${id}`)] *)
Definition id_ilike (id : option string) (o : OrderRow) : bool :=
  ilike (template id) (id_text (o_id o)).

(** The WHERE clause built on [Order.query()] *)
Definition index_where (status id : option string) : OrderRow -> bool :=
  if truthy status && truthy id then
    fun o => status_is status o || id_ilike id o
  else if truthy status then
    fun o => status_is status o
  else if truthy id then
    fun o => id_ilike id o
  else
    fun _ => true.

Definition index_try (status id : option string) (page limit : nat) : M Response :=
  coupons <- Order.paginate (index_where status id) page limit ;;
  coupons <- Transformer.paginate coupons ;;
  ret (mkResponse 200 (BodyPage coupons)).

Definition index (status id : option string) (page limit : nat) : M Response :=
  try_catch (index_try status id page limit)
            (fun error => ret (not_performed error)).

(** Lines 66 to 72 of [store]: everything written through [trx], up to
    and including the commit. *)
Definition store_persist (req : OrderRequest) (trx : nat) : M OrderRow :=
  order <- Order.create (rq_user_id req) (rq_status req) trx ;;
  match rq_items req with
  | Some (p :: rest) => Service.syncItems order trx (p :: rest)
  | _ => ret tt
  end ;;
  Database.commit trx ;;
  ret order.

(** Lines 74 to 76 of [store] *)
Definition store_respond (order : OrderRow) : M Response :=
  found <- Order.find (o_id order) ;;
  view <- Transformer.item true false found ;;
  ret (mkResponse 201 (BodyOrder view)).

Definition store_try (req : OrderRequest) (trx : nat) : M Response :=
  order <- store_persist req trx ;;
  store_respond order.

Definition store_catch (trx : nat) (error : Exn) : M Response :=
  Database.rollback trx ;;
  ret (not_performed error).

Definition store (req : OrderRequest) : M Response :=
  trx <- Database.beginTransaction ;;
  try_catch (store_try req trx) (store_catch trx).

Definition show_try (id : Z) : M Response :=
  orders <- Order.findOrFail id ;;
  view <- Transformer.item true true (Some orders) ;;
  ret (mkResponse 200 (BodyOrder view)).

Definition show (id : Z) : M Response :=
  try_catch (show_try id) (fun error => ret (not_performed error)).

Definition update_try (id : Z) (req : OrderRequest) : M Response :=
  order <- Order.findOrFail id ;;
  trx <- Database.beginTransaction ;;
  let order := Order.merge order (rq_user_id req) (rq_status req) in
  Service.syncUpdateItems_unawaited order trx (rq_items req) ;;
  Order.save order (Some trx) ;;
  Database.commit trx ;;
  view <- Transformer.item true true (Some order) ;;
  ret (mkResponse 200 (BodyOrder view)).

(** [const trx] is declared inside the [try] block, so the [catch] block
    has no binding for it: evaluating [trx.rollback()] throws before any
    rollback is asked for and before a response is sent. *)
Definition update_catch (error : Exn) : M Response :=
  throw (ReferenceError "trx" "update").

Definition update (id : Z) (req : OrderRequest) : M Response :=
  try_catch (update_try id req) update_catch.

(** [destroy] hands [Order.findOrFail] an object of conditions instead of
    a key; what the query layer makes of it is left to [lookup]. *)
Definition destroy_try (lookup : Z -> M OrderRow) (id : Z) : M Response :=
  order <- lookup id ;;
  t <- gets now ;;
  let order := Order.merge_deleted_at order t in
  Order.save order None ;;
  view <- Transformer.item false false (Some order) ;;
  ret (mkResponse 200 (BodyOrder view)).

Definition destroy (lookup : Z -> M OrderRow) (id : Z) : M Response :=
  try_catch (destroy_try lookup id) (fun error => ret (not_performed error)).

(** [orderDiscounts < 1 || (orderDiscounts >= 1 && coupon.recursive)] *)
Definition canApplyToOrder (orderDiscounts : nat) (coupon : CouponRow) : bool :=
  (orderDiscounts <? 1)%nat || ((1 <=? orderDiscounts)%nat && c_recursive coupon).

(** Lines 182 to 209 of [applyDiscount] *)
Definition applyDiscount_decide (eligible : Db -> OrderRow -> CouponRow -> bool)
    (id : Z) (code : string) : M (OrderRow * Info) :=
  coupon <- Coupon.findByOrFail_code (toUpperCase code) ;;
  order <- Order.findOrFail id ;;
  canAddDiscount <- Service.canApplyDiscount eligible order coupon ;;
  orderDiscounts <- Order.coupons_getCount order ;;
  if canAddDiscount && canApplyToOrder orderDiscounts coupon then
    Discount.findOrCreate (o_id order) (c_id coupon) ;;
    ret (order, mkInfo "Coupon successfully applied" true)
  else
    ret (order, mkInfo "This coupon could not be applied" false).

(** Lines 211 to 214: the statement reads and assigns [orders], a name
    that neither the handler nor the module declares ([order] is the
    local), so under ['use strict'] it throws and the [send] below it is
    never reached. *)
Definition applyDiscount_respond (order : OrderRow) (info : Info) : M Response :=
  orders <- throw (A := OrderRow) (ReferenceError "orders" "applyDiscount") ;;
  _ <- Transformer.item true true (Some orders) ;;
  ret (mkResponse 200 (BodyApply order info)).

Definition applyDiscount_try (eligible : Db -> OrderRow -> CouponRow -> bool)
    (id : Z) (code : string) : M Response :=
  decided <- applyDiscount_decide eligible id code ;;
  applyDiscount_respond (fst decided) (snd decided).

Definition applyDiscount_catch (error : Exn) : M Response :=
  ret (mkResponse 400
         (BodyError "Error coupon clould not be apllied" (e_stack error))).

Definition applyDiscount (eligible : Db -> OrderRow -> CouponRow -> bool)
    (id : Z) (code : string) : M Response :=
  try_catch (applyDiscount_try eligible id code) applyDiscount_catch.

Definition removeDiscount_try (discount_id : Z) : M Response :=
  discount <- Discount.findOrFail discount_id ;;
  t <- gets now ;;
  let discount := Discount.merge_deleted_at discount t in
  Discount.save discount ;;
  ret (mkResponse 200 (BodyDiscount discount)).

Definition removeDiscount (discount_id : Z) : M Response :=
  try_catch (removeDiscount_try discount_id)
            (fun error => ret (not_performed error)).

End OrderController.

(** ** Schema migrations *)

Inductive ColumnType :=
| TIncrements
| TInteger
| TString (length : nat)
| TBoolean
| TTimestamp (useTz : bool)
| TDateTime
| TUuid
| TText
| TDecimal (precision scale : nat).

Record Column := mkColumn {
  col_name        : string;
  col_type        : ColumnType;
  col_notNullable : bool;
  col_unsigned    : bool;
  col_unique      : bool;
  col_index       : bool;
  col_primary     : bool;
  col_default     : option string
}.

(** [table.foreign(column).references(key).inTable(table).onDelete(rule)] *)
Record ForeignKey := mkForeign {
  fk_column     : string;
  fk_references : string;
  fk_inTable    : string;
  fk_onDelete   : string
}.

Record Table := mkTable {
  tbl_name    : string;
  tbl_columns : list Column;
  tbl_foreign : list ForeignKey
}.

(** The tables of the database, in the order of their creation *)
Definition SchemaState := list Table.

Inductive SchemaError :=
| TableExists (name : string)
| NoSuchTable (name : string)
| MissingReference (table target : string)
| StillReferenced (name holder : string).

Inductive Outcome :=
| Done (s : SchemaState)
| Refused (e : SchemaError).

Module Schema.

(** The chainable column builder *)
Definition column (name : string) (ty : ColumnType) : Column :=
  mkColumn name ty false false false false false None.

Definition notNullable (c : Column) : Column :=
  mkColumn (col_name c) (col_type c) true (col_unsigned c) (col_unique c)
           (col_index c) (col_primary c) (col_default c).

Definition unsigned (c : Column) : Column :=
  mkColumn (col_name c) (col_type c) (col_notNullable c) true (col_unique c)
           (col_index c) (col_primary c) (col_default c).

Definition unique (c : Column) : Column :=
  mkColumn (col_name c) (col_type c) (col_notNullable c) (col_unsigned c) true
           (col_index c) (col_primary c) (col_default c).

Definition index (c : Column) : Column :=
  mkColumn (col_name c) (col_type c) (col_notNullable c) (col_unsigned c)
           (col_unique c) true (col_primary c) (col_default c).

Definition primary (c : Column) : Column :=
  mkColumn (col_name c) (col_type c) (col_notNullable c) (col_unsigned c)
           (col_unique c) (col_index c) true (col_default c).

Definition defaultTo (v : string) (c : Column) : Column :=
  mkColumn (col_name c) (col_type c) (col_notNullable c) (col_unsigned c)
           (col_unique c) (col_index c) (col_primary c) (Some v).

(** [table.increments()]: the auto-increment primary key [id] *)
Definition increments : Column := primary (column "id" TIncrements).

(** [table.timestamps()]: [created_at] and [updated_at] *)
Definition timestamps : list Column :=
  [column "created_at" TDateTime; column "updated_at" TDateTime].

Definition has_table (name : string) (s : SchemaState) : bool :=
  existsb (fun t => String.eqb (tbl_name t) name) s.

Definition references (name : string) (t : Table) : bool :=
  existsb (fun fk => String.eqb (fk_inTable fk) name) (tbl_foreign t).

(** [this.create(name, builder)]: CREATE TABLE.  The database refuses a
    name that is taken and a foreign key into a table that does not
    exist. *)
Definition create (t : Table) (s : SchemaState) : Outcome :=
  if has_table (tbl_name t) s then Refused (TableExists (tbl_name t))
  else
    match find (fun fk => negb (has_table (fk_inTable fk) s ||
                                String.eqb (fk_inTable fk) (tbl_name t)))
               (tbl_foreign t) with
    | Some fk => Refused (MissingReference (tbl_name t) (fk_inTable fk))
    | None => Done (s ++ [t])
    end.

(** [this.drop(name)]: DROP TABLE.  The database refuses a table that
    does not exist and one that a foreign key of another table points
    to. *)
Definition drop (name : string) (s : SchemaState) : Outcome :=
  if negb (has_table name s) then Refused (NoSuchTable name)
  else
    match find (fun t => negb (String.eqb (tbl_name t) name) && references name t) s with
    | Some t => Refused (StillReferenced name (tbl_name t))
    | None => Done (filter (fun t => negb (String.eqb (tbl_name t) name)) s)
    end.

(** The actions queued by [up()] or [down()] run in order inside one
    transaction: the first refusal ends the run and nothing of it is
    kept. *)
Fixpoint executeActions (actions : list (SchemaState -> Outcome)) (s : SchemaState)
  : Outcome :=
  match actions with
  | [] => Done s
  | action :: rest =>
      match action s with
      | Done s' => executeActions rest s'
      | Refused e => Refused e
      end
  end.

End Schema.

Module TokensSchema.

Definition tokens : Table :=
  mkTable "tokens"
    ([ Schema.increments;
       Schema.unsigned (Schema.notNullable (Schema.column "user_id" TInteger));
       Schema.index (Schema.unique (Schema.notNullable
                                      (Schema.column "token" (TString 255))));
       Schema.notNullable (Schema.column "type" (TString 80));
       Schema.defaultTo "false" (Schema.column "is_revoked" TBoolean);
       Schema.column "created_at" (TTimestamp true);
       Schema.column "updated_at" (TTimestamp true);
       Schema.column "deleted_at" (TTimestamp true) ])
    [].

Definition up : list (SchemaState -> Outcome) := [Schema.create tokens].

Definition down : list (SchemaState -> Outcome) := [Schema.drop "tokens"].

End TokensSchema.

Module ProductSchema.

Definition products : Table :=
  mkTable "products"
    ([ Schema.primary (Schema.column "id" TUuid);
       Schema.column "name" (TString 200);
       Schema.unsigned (Schema.column "image_id" TUuid);
       Schema.column "description" TText;
       Schema.column "price" (TDecimal 12 2) ]
     ++ Schema.timestamps)
    [mkForeign "image_id" "id" "images" "cascade"].

Definition image_product : Table :=
  mkTable "image_product"
    [ Schema.increments;
      Schema.unsigned (Schema.column "image_id" TUuid);
      Schema.unsigned (Schema.column "product_id" TUuid) ]
    [mkForeign "image_id" "id" "images" "cascade";
     mkForeign "product_id" "id" "products" "cascade"].

Definition category_product : Table :=
  mkTable "category_product"
    [ Schema.increments;
      Schema.unsigned (Schema.column "product_id" TUuid);
      Schema.unsigned (Schema.column "category_id" TUuid) ]
    [mkForeign "product_id" "id" "products" "cascade";
     mkForeign "category_id" "id" "categories" "cascade"].

Definition up : list (SchemaState -> Outcome) :=
  [Schema.create products; Schema.create image_product; Schema.create category_product].

Definition down : list (SchemaState -> Outcome) :=
  [Schema.drop "category_product"; Schema.drop "image_product"; Schema.drop "products"].

End ProductSchema.

(** ** Sample data *)

Definition world_of (d : Db) : World := mkWorld d [] [] 1000 0.

Definition pending_P1 : OrderRequest :=
  mkRequest (Some 5) (Some [mkItem "P1" 2]) (Some "pending").

Definition any_eligible : Db -> OrderRow -> CouponRow -> bool := fun _ _ _ => true.

Definition SAVE10 : CouponRow := mkCoupon 1 "SAVE10" false.
Definition order7 : OrderRow := mkOrder 7 (Some 5) (Some "pending") None.

Definition shop : Db := mkDb [order7] [] [SAVE10] [].

Definition three_orders : Db :=
  mkDb [order7; mkOrder 8 (Some 5) (Some "paid") None;
        mkOrder 9 None (Some "paid") None] [] [] [].

(** ** Vocabulary of the statements *)

(** What a handler may do to the committed tables, as a relation between
    the tables before and after. *)
Definition effect {A} (c : M A) (R : Db -> Db -> Prop) : Prop :=
  forall w, R (committed w) (committed (snd (c w))).

(** What a step leaves alone while transaction [h] stays open: the
    committed tables and the state of [h]. *)
Definition frame (h : nat) (w w' : World) : Prop :=
  committed w' = committed w /\ Database.trx_state w' h = Database.trx_state w h.

Definition keeps (h : nat) {A} (c : M A) : Prop :=
  forall w, frame h w (snd (c w)).


Definition is_active (r : DiscountRow) : bool :=
  match d_deleted_at r with None => true | Some _ => false end.

(** Active Discount rows that link a given order to a given coupon *)
Definition active_links (order_id coupon_id : Z) (l : list DiscountRow) : nat :=
  List.length
    (filter (fun r => (d_order_id r =? order_id) && (d_coupon_id r =? coupon_id)
                      && is_active r) l).

(** The stacking rule in the words of its description *)
Definition stacking_rule (activeCount : nat) (recursive : bool) : Prop :=
  (activeCount < 1)%nat \/ ((activeCount >= 1)%nat /\ recursive = true).

(** The rows [syncItems] leaves behind, one after the other *)
Fixpoint add_items (order_id : Z) (items : list ItemPayload)
    (l : list OrderItemRow) : list OrderItemRow :=
  match items with
  | [] => l
  | p :: rest =>
      add_items order_id rest
        (l ++ [mkOrderItem (fresh_id (map oi_id l)) order_id p])
  end.

(** The entries of a request's [items], none when the field is absent *)
Definition requested (req : OrderRequest) : list ItemPayload :=
  match rq_items req with Some l => l | None => [] end.

(** The discounts table once a link between the order and the coupon is
    asked for: as it was when some row already links them, with one new
    active row otherwise. *)
Definition ensure_link (order_id coupon_id : Z) (d : Db) : Db :=
  match Discount.lookup_pair order_id coupon_id d with
  | Some _ => d
  | None => snd (Discount.insert order_id coupon_id d)
  end.

Definition linked (order_id coupon_id : Z) (d : Db) : Prop :=
  Discount.lookup_pair order_id coupon_id d <> None.

Definition shop_discounted : Db := mkDb [order7] [] [SAVE10] [mkDiscount 1 7 1 None].

(** The same world at a later instant *)
Definition later (t : Z) (w : World) : World :=
  mkWorld (committed w) (trxs w) (faults w) t (landed w).

(** The answer of a handler whose lookup found no row *)
Definition not_found (model : string) : Result Response :=
  Ok (OrderController.not_performed (ModelNotFound model)).

(** An error answer that carries [message] and, as its [error] field, the
    stack of the exception that was caught *)
Definition answers_with_stack (message : string) (caught : Exn) (r : Result Response)
  : Prop :=
  r = Ok (mkResponse 400 (BodyError message (e_stack caught))).

(** The [error] field of an error answer *)
Definition error_field (r : Result Response) : option string :=
  match r with
  | Ok (mkResponse _ (BodyError _ error)) => Some error
  | _ => None
  end.

Definition connection_lost : Exn :=
  mkExn "Error" "Connection terminated unexpectedly" "
    at Connection.con.once
    at Client_PG._query
    at OrderService.syncItems".

(** Two entries, and a store that fails on the second insert of the batch *)
Definition two_items : OrderRequest :=
  mkRequest (Some 5) (Some [mkItem "P1" 2; mkItem "P2" 1]) (Some "pending").

Definition failing_mid_batch : World :=
  mkWorld shop [] [None; None; None; Some connection_lost] 1000 0.

(** Order 7 with three items *)
Definition shop_with_items : Db :=
  mkDb [order7]
       [mkOrderItem 1 7 (mkItem "P1" 2); mkOrderItem 2 7 (mkItem "P2" 1);
        mkOrderItem 3 7 (mkItem "P3" 4)]
       [SAVE10] [].

(** [{ items: [] }] *)
Definition no_items : OrderRequest := mkRequest None (Some []) None.

(** [{ status: "paid" }] *)
Definition mark_paid : OrderRequest := mkRequest None None (Some "paid").

(** A store that loses the connection on the third call it receives *)
Definition failing_on_save : World :=
  mkWorld shop_with_items [] [None; None; Some connection_lost] 1000 0.

(** Order 7, soft-deleted at instant 900, with one item *)
Definition removed_order : Db :=
  mkDb [mkOrder 7 (Some 5) (Some "pending") (Some 900)]
       [mkOrderItem 1 7 (mkItem "P1" 2)] [SAVE10] [].



(** A store whose only coupon keeps lower-case letters in its code *)
Definition lower_case_shop : Db := mkDb [order7] [] [mkCoupon 1 "save10" false] [].

(** A schema in which every foreign key points into a table that is
    there *)
Definition closed (s : SchemaState) : Prop :=
  forall t fk, In t s -> In fk (tbl_foreign t) -> Schema.has_table (fk_inTable fk) s = true.

(** The two tables that the product tables point into *)
Definition catalogue : SchemaState :=
  [mkTable "images" [Schema.primary (Schema.column "id" TUuid)] [];
   mkTable "categories" [Schema.primary (Schema.column "id" TUuid)] []].

(** ** Running handlers *)

Lemma with_committed_same w : with_committed (committed w) w = w.
Proof. destruct w; reflexivity. Qed.

Lemma io_quiet w : faults w = [] -> io w = (Ok tt, w).
Proof. intros H. unfold io. rewrite H. reflexivity. Qed.

Lemma io_frame w :
  committed (snd (io w)) = committed w /\ trxs (snd (io w)) = trxs w /\
  now (snd (io w)) = now w /\ landed (snd (io w)) = landed w.
Proof.
  unfold io. destruct (faults w) as [|[e|] rest]; simpl; auto.
Qed.

Lemma io_cases w :
  (exists e rest, faults w = Some e :: rest /\ io w = (Throw e, with_faults rest w)) \/
  (exists rest, io w = (Ok tt, with_faults rest w)).
Proof.
  unfold io. destruct (faults w) as [|[e|] rest] eqn:E.
  - right. exists []. rewrite <- E. destruct w; reflexivity.
  - left. exists e, rest. auto.
  - right. exists rest. reflexivity.
Qed.

Lemma direct_quiet {A} (q : Db -> A * Db) w :
  faults w = [] ->
  Database.direct q w = (Ok (fst (q (committed w))), with_committed (snd (q (committed w))) w).
Proof.
  intros H. unfold Database.direct, bind. rewrite (io_quiet _ H). simpl.
  destruct (q (committed w)); reflexivity.
Qed.

Lemma direct_read_quiet {A} (f : Db -> A) w :
  faults w = [] ->
  Database.direct (fun d => (f d, d)) w = (Ok (f (committed w)), w).
Proof.
  intros H. rewrite direct_quiet by assumption. simpl.
  rewrite with_committed_same. reflexivity.
Qed.

Lemma direct_cases {A} (q : Db -> A * Db) w :
  (exists e rest, Database.direct q w = (Throw e, with_faults rest w)) \/
  (exists rest, Database.direct q w =
     (Ok (fst (q (committed w))),
      with_committed (snd (q (committed w))) (with_faults rest w))).
Proof.
  unfold Database.direct, bind.
  destruct (io_cases w) as [(e & rest & _ & ->)|(rest & ->)].
  - left. eauto.
  - right. exists rest. simpl. destruct (q (committed w)); reflexivity.
Qed.

(** *** Effects on the committed tables *)

Lemma effect_ret {A} (a : A) : effect (ret a) eq.
Proof. intros w; reflexivity. Qed.

Lemma effect_throw {A} e : effect (throw (A := A) e) eq.
Proof. intros w; reflexivity. Qed.

Lemma effect_bind_read {A B} (c : M A) (k : A -> M B) R :
  (forall d, R d d) ->
  effect c eq -> (forall a, effect (k a) R) -> effect (bind c k) R.
Proof.
  intros Hr Hc Hk w. unfold bind.
  specialize (Hc w). destruct (c w) as [[a|e] w1]; simpl in *.
  - rewrite Hc. apply Hk.
  - rewrite <- Hc. apply Hr.
Qed.

Lemma effect_direct {A} (q : Db -> A * Db) :
  effect (Database.direct q) (fun d d' => d' = d \/ d' = snd (q d)).
Proof.
  intros w.
  destruct (direct_cases q w) as [(e & rest & ->)|(rest & ->)]; simpl; auto.
Qed.

Lemma effect_direct_read {A} (f : Db -> A) :
  effect (Database.direct (fun d => (f d, d))) eq.
Proof.
  intros w. destruct (effect_direct (fun d => (f d, d)) w) as [H|H]; simpl in H; auto.
Qed.

(** ** The order listing *)






(** Order 7 is pending and order 9 is paid: with the filters
    [status=pending] and [id=9] the listing has both, and not order 8. *)
Example index_pending_or_nine :
  filter (OrderController.index_where (Some "pending") (Some "9")) (orders three_orders) =
  [order7; mkOrder 9 None (Some "paid") None].
Proof. reflexivity. Qed.

(** ** Applying a coupon *)

Lemma canApplyToOrder_spec n C :
  OrderController.canApplyToOrder n C = true <-> stacking_rule n (c_recursive C).
Proof.
  unfold OrderController.canApplyToOrder, stacking_rule.
  rewrite orb_true_iff, andb_true_iff, Nat.ltb_lt, Nat.leb_le. reflexivity.
Qed.

Lemma lookup_order_id id d O : Order.lookup id d = Some O -> o_id O = id.
Proof.
  unfold Order.lookup. intros H. apply find_some in H. destruct H as [_ H].
  now apply Z.eqb_eq in H.
Qed.

Lemma findOrFail_order_quiet id O w :
  faults w = [] -> Order.lookup id (committed w) = Some O ->
  Order.findOrFail id w = (Ok O, w).
Proof.
  intros Hf HO. unfold Order.findOrFail, Order.find, bind.
  rewrite (direct_read_quiet (Order.lookup id) w Hf), HO. reflexivity.
Qed.

Lemma findOrCreate_quiet order_id coupon_id w :
  faults w = [] ->
  exists row,
    Discount.findOrCreate order_id coupon_id w =
    (Ok row, with_committed (ensure_link order_id coupon_id (committed w)) w).
Proof.
  intros Hf. unfold Discount.findOrCreate, ensure_link, bind.
  rewrite (direct_read_quiet (Discount.lookup_pair order_id coupon_id) w Hf).
  destruct (Discount.lookup_pair order_id coupon_id (committed w)) as [row|].
  - exists row. unfold ret. now rewrite with_committed_same.
  - rewrite direct_quiet by assumption. eauto.
Qed.

Lemma ensure_link_linked order_id coupon_id d :
  linked order_id coupon_id (ensure_link order_id coupon_id d).
Proof.
  unfold linked, ensure_link.
  destruct (Discount.lookup_pair order_id coupon_id d) eqn:E.
  - rewrite E. discriminate.
  - unfold Discount.lookup_pair, Discount.insert in *. simpl.
    intros H.
    assert (Hin : In (mkDiscount (fresh_id (map d_id (discounts d))) order_id coupon_id None)
                     (discounts d ++
                      [mkDiscount (fresh_id (map d_id (discounts d))) order_id coupon_id None])).
    { apply in_or_app. right. now left. }
    pose proof (find_none _ _ H _ Hin) as Hx. simpl in Hx.
    rewrite !Z.eqb_refl in Hx. discriminate.
Qed.

Lemma applyDiscount_decide_quiet eligible code O C w :
  faults w = [] ->
  find (fun c => String.eqb (c_code c) (toUpperCase code)) (coupons (committed w)) = Some C ->
  Order.lookup (o_id O) (committed w) = Some O ->
  let allowed :=
    eligible (committed w) O C &&
    OrderController.canApplyToOrder
      (List.length (Order.active_discounts (o_id O) (committed w))) C in
  exists info,
    OrderController.applyDiscount_decide eligible (o_id O) code w =
    (Ok (O, info),
     with_committed
       (if allowed then ensure_link (o_id O) (c_id C) (committed w) else committed w) w)
    /\ info_success info = allowed.
Proof.
  intros Hf HC HO allowed.
  unfold OrderController.applyDiscount_decide, Coupon.findByOrFail_code, bind.
  rewrite (direct_read_quiet
             (fun d => find (fun c => String.eqb (c_code c) (toUpperCase code)) (coupons d))
             w Hf), HC.
  unfold ret at 1. rewrite (findOrFail_order_quiet _ _ _ Hf HO).
  unfold Service.canApplyDiscount.
  rewrite (direct_read_quiet (fun d => eligible d O C) w Hf).
  unfold Order.coupons_getCount.
  rewrite (direct_read_quiet
             (fun d => List.length (Order.active_discounts (o_id O) d)) w Hf).
  fold allowed. destruct allowed.
  - destruct (findOrCreate_quiet (o_id O) (c_id C) w Hf) as [row ->].
    eexists. split; reflexivity.
  - eexists. rewrite with_committed_same. split; reflexivity.
Qed.



Ltac direct_step :=
  match goal with
  | |- context [Database.direct ?q ?w] =>
      destruct (direct_cases q w) as [(? & ? & ->)|(? & ->)]; cbn [fst snd]
  end.

(** Whatever the store does to the calls, [applyDiscount] either leaves
    the committed tables alone or adds one active row for a pair that had
    none, after the policy has allowed it. *)
Lemma applyDiscount_outcome eligible id code w :
  let d := committed w in
  let d' := committed (snd (OrderController.applyDiscount eligible id code w)) in
  d' = d \/
  exists O C,
    Order.lookup id d = Some O /\
    find (fun c => String.eqb (c_code c) (toUpperCase code)) (coupons d) = Some C /\
    eligible d O C = true /\
    OrderController.canApplyToOrder
      (List.length (Order.active_discounts (o_id O) d)) C = true /\
    Discount.lookup_pair (o_id O) (c_id C) d = None /\
    d' = snd (Discount.insert (o_id O) (c_id C) d).
Proof.
  unfold OrderController.applyDiscount, OrderController.applyDiscount_try,
    OrderController.applyDiscount_decide, OrderController.applyDiscount_respond,
    OrderController.applyDiscount_catch, Coupon.findByOrFail_code,
    Order.findOrFail, Order.find, Service.canApplyDiscount, Order.coupons_getCount,
    Discount.findOrCreate, try_catch, bind, ret, throw.
  cbn zeta.
  direct_step; [now left|].
  destruct (find _ (coupons (committed w))) as [C|] eqn:HC; [|now left].
  direct_step; [now left|].
  cbn [committed with_committed with_faults].
  destruct (Order.lookup id (committed w)) as [O|] eqn:HO; [|now left].
  direct_step; [now left|].
  cbn [committed with_committed with_faults trxs faults now landed].
  direct_step; [now left|].
  cbn [committed with_committed with_faults trxs faults now landed].
  destruct (eligible (committed w) O C) eqn:He; cbn [andb]; [|now left].
  destruct (OrderController.canApplyToOrder _ C) eqn:Hs; [|now left].
  direct_step; [now left|].
  cbn [committed with_committed with_faults trxs faults now landed].
  destruct (Discount.lookup_pair (o_id O) (c_id C) (committed w)) eqn:Hl; [now left|].
  direct_step; [now left|].
  cbn [committed with_committed with_faults trxs faults now landed].
  right. exists O, C. auto 10.
Qed.

Lemma active_links_app order_id coupon_id l l' :
  active_links order_id coupon_id (l ++ l') =
  (active_links order_id coupon_id l + active_links order_id coupon_id l')%nat.
Proof. unfold active_links. now rewrite filter_app, length_app. Qed.

Lemma unlinked_no_active_links order_id coupon_id d :
  Discount.lookup_pair order_id coupon_id d = None ->
  active_links order_id coupon_id (discounts d) = 0%nat.
Proof.
  unfold Discount.lookup_pair, active_links. intros H.
  pose proof (find_none _ _ H) as Hn. clear H.
  induction (discounts d) as [|r l IH]; [reflexivity|].
  simpl. rewrite (Hn r (or_introl eq_refl)). simpl.
  apply IH. intros x Hx. apply Hn. now right.
Qed.

Lemma insert_links order_id coupon_id d oid cid :
  Discount.lookup_pair order_id coupon_id d = None ->
  (active_links oid cid (discounts d) <= 1)%nat ->
  (active_links oid cid (discounts (snd (Discount.insert order_id coupon_id d))) <= 1)%nat.
Proof.
  intros Hnone Hle. unfold Discount.insert. simpl. rewrite active_links_app.
  unfold active_links at 2. simpl.
  destruct ((order_id =? oid) && (coupon_id =? cid)) eqn:E; simpl.
  - apply andb_true_iff in E. destruct E as [E1 E2].
    apply Z.eqb_eq in E1, E2. subst.
    rewrite (unlinked_no_active_links _ _ _ Hnone). simpl. lia.
  - lia.
Qed.

(** C2.  Whatever the store does to the calls, [applyDiscount] keeps at
    most one active Discount row per pair of order and coupon: it adds no
    row for a pair that a row already links, so when the order and the
    coupon of the request are linked the tables stay as they are, and a
    second application after one that recorded a row records nothing. *)
Theorem applyDiscount_never_duplicates eligible id code w :
  let d := committed w in
  let w1 := snd (OrderController.applyDiscount eligible id code w) in
  let w2 := snd (OrderController.applyDiscount eligible id code w1) in
  (forall order_id coupon_id,
      (active_links order_id coupon_id (discounts d) <= 1)%nat ->
      (active_links order_id coupon_id (discounts (committed w1)) <= 1)%nat /\
      (active_links order_id coupon_id (discounts (committed w2)) <= 1)%nat)
  /\ (forall O C,
        Order.lookup id d = Some O ->
        find (fun c => String.eqb (c_code c) (toUpperCase code)) (coupons d) = Some C ->
        linked (o_id O) (c_id C) d ->
        committed w1 = d)
  /\ (committed w1 <> d -> committed w2 = committed w1).
Proof.
  intros d w1 w2.
  assert (Hkeep : forall w0 order_id coupon_id,
    (active_links order_id coupon_id (discounts (committed w0)) <= 1)%nat ->
    (active_links order_id coupon_id
       (discounts (committed (snd (OrderController.applyDiscount eligible id code w0))))
     <= 1)%nat).
  { intros w0 oid cid Hle.
    destruct (applyDiscount_outcome eligible id code w0)
      as [->|(O & C & _ & _ & _ & _ & Hnone & ->)]; [assumption|].
    now apply insert_links. }
  split; [|split].
  - intros oid cid Hle. split.
    + now apply Hkeep.
    + apply Hkeep. now apply Hkeep.
  - intros O C HO HC Hl.
    destruct (applyDiscount_outcome eligible id code w)
      as [H|(O' & C' & HO' & HC' & _ & _ & Hnone & _)]; [exact H|].
    fold d in HO', HC', Hnone. rewrite HO in HO'. rewrite HC in HC'.
    injection HO' as <-. injection HC' as <-. now elim Hl.
  - intros Hchanged.
    destruct (applyDiscount_outcome eligible id code w)
      as [H|(O & C & HO & HC & _ & _ & Hnone & Hd1)]; [now elim Hchanged|].
    fold d in HO, HC, Hnone, Hd1. fold w1 in Hd1.
    destruct (applyDiscount_outcome eligible id code w1)
      as [H|(O' & C' & HO' & HC' & _ & _ & Hnone' & _)]; [exact H|].
    exfalso. rewrite Hd1 in HO', HC', Hnone'.
    unfold Discount.insert, Order.lookup in HO'. simpl in HO', HC'.
    unfold Order.lookup in HO. rewrite HO in HO'. rewrite HC in HC'.
    injection HO' as <-. injection HC' as <-.
    pose proof (ensure_link_linked (o_id O) (c_id C) d) as Hl.
    unfold linked, ensure_link in Hl. rewrite Hnone in Hl. now apply Hl.
Qed.

Lemma applyDiscount_never_duplicates_witness :
  committed (snd (OrderController.applyDiscount any_eligible 7 "save10"
                    (world_of shop_discounted))) = shop_discounted.
Proof.
  apply (applyDiscount_never_duplicates any_eligible 7 "save10"
           (world_of shop_discounted)) with (O := order7) (C := SAVE10);
    [reflexivity | reflexivity | discriminate].
Defined.

(** No run of [applyDiscount] reaches [response.status(200)]: whether the
    policy allows the coupon or refuses it, the statement after the
    decision throws and the [catch] block answers. *)
Lemma applyDiscount_always_400 eligible id code w :
  exists error,
    fst (OrderController.applyDiscount eligible id code w) =
    Ok (mkResponse 400 (BodyError "Error coupon clould not be apllied" (e_stack error))).
Proof.
  unfold OrderController.applyDiscount, OrderController.applyDiscount_try,
    OrderController.applyDiscount_respond, OrderController.applyDiscount_catch,
    try_catch, bind.
  destruct (OrderController.applyDiscount_decide eligible id code w) as [[[O info]|e] w1].
  - exists (ReferenceError "orders" "applyDiscount"). reflexivity.
  - exists e. reflexivity.
Qed.

(** C3.  SAVE10 is not recursive and order 7 carries one active discount,
    so the policy refuses the coupon; the handler then throws on the
    undeclared [orders], takes its [catch] block and answers 400 with the
    stack of the ReferenceError, where the description has a normal return
    carrying [info.success = false].  The same happens on the fresh order,
    where the coupon is accepted and recorded. *)
Theorem applyDiscount_rejection_is_answered_as_error :
  fst (OrderController.applyDiscount any_eligible 7 "SAVE10" (world_of shop_discounted)) =
    Ok (mkResponse 400
          (BodyError "Error coupon clould not be apllied"
             (e_stack (ReferenceError "orders" "applyDiscount"))))
  /\ fst (OrderController.applyDiscount_decide any_eligible 7 "SAVE10"
            (world_of shop_discounted)) =
       Ok (order7, mkInfo "This coupon could not be applied" false)
  /\ OrderController.applyDiscount any_eligible 7 "SAVE10" (world_of shop) =
       (Ok (mkResponse 400
              (BodyError "Error coupon clould not be apllied"
                 (e_stack (ReferenceError "orders" "applyDiscount")))),
        world_of shop_discounted).
Proof. repeat split. Qed.

(** ** Removing a discount *)

Lemma lookup_discount_id id d row : Discount.lookup id d = Some row -> d_id row = id.
Proof.
  unfold Discount.lookup. intros H. apply find_some in H. destruct H as [_ H].
  now apply Z.eqb_eq in H.
Qed.

Lemma lookup_after_write id d row t :
  Discount.lookup id d = Some row ->
  Discount.lookup id (snd (Discount.write (Discount.merge_deleted_at row t) d)) =
  Some (Discount.merge_deleted_at row t).
Proof.
  intros H. pose proof (lookup_discount_id _ _ _ H) as Hid.
  unfold Discount.lookup, Discount.write in *. simpl. rewrite Hid.
  induction (discounts d) as [|x l IH]; [discriminate|].
  simpl in *.
  destruct (d_id x =? id) eqn:E.
  - simpl. now rewrite Hid, Z.eqb_refl.
  - rewrite E. apply IH. exact H.
Qed.

(** C8, as the handler has it.  When the store answers, [removeDiscount]
    on a key that some Discount row carries stamps [deleted_at] of that
    row with the current instant, leaves every other row alone and
    answers 200 with the row, whether or not the row was removed before;
    on a key that no row carries it answers 400 with the missing-row
    error and changes nothing. *)
Theorem removeDiscount_stamps_any_existing_row id w :
  faults w = [] ->
  (forall row,
      Discount.lookup id (committed w) = Some row ->
      let stamped := Discount.merge_deleted_at row (now w) in
      let after := snd (OrderController.removeDiscount id w) in
      fst (OrderController.removeDiscount id w) =
        Ok (mkResponse 200 (BodyDiscount stamped))
      /\ discounts (committed after) =
           map (fun x => if d_id x =? id then stamped else x) (discounts (committed w))
      /\ Discount.lookup id (committed after) = Some stamped
      /\ d_deleted_at stamped = Some (now w))
  /\ (Discount.lookup id (committed w) = None ->
      OrderController.removeDiscount id w = (not_found "Discount", w)).
Proof.
  intros Hf. split.
  - intros row Hrow stamped after.
    assert (Hrun : OrderController.removeDiscount id w =
                   (Ok (mkResponse 200 (BodyDiscount stamped)),
                    with_committed (snd (Discount.write stamped (committed w))) w)).
    { unfold OrderController.removeDiscount, OrderController.removeDiscount_try,
        Discount.findOrFail, Discount.save, try_catch, bind.
      rewrite (direct_read_quiet (Discount.lookup id) w Hf), Hrow.
      unfold ret at 1, gets. fold stamped.
      rewrite direct_quiet by assumption. reflexivity. }
    unfold after. rewrite Hrun. cbn [fst snd]. split; [reflexivity|].
    split; [|split].
    + simpl. unfold stamped at 1. simpl.
      now rewrite (lookup_discount_id _ _ _ Hrow).
    + unfold with_committed. cbn [committed]. now apply lookup_after_write.
    + reflexivity.
  - intros Hnone.
    unfold OrderController.removeDiscount, OrderController.removeDiscount_try,
      Discount.findOrFail, try_catch, bind.
    rewrite (direct_read_quiet (Discount.lookup id) w Hf), Hnone. reflexivity.
Qed.

Lemma removeDiscount_stamps_any_existing_row_witness :
  OrderController.removeDiscount 99 (world_of shop_discounted) =
  (not_found "Discount", world_of shop_discounted).
Proof.
  apply (removeDiscount_stamps_any_existing_row 99 (world_of shop_discounted));
    reflexivity.
Defined.

(** Removing discount 1 twice: the second call finds the row that the
    first call stamped, stamps it again and answers 200; it does not
    answer with the missing-row error. *)
Lemma removeDiscount_again_succeeds :
  let w1 := snd (OrderController.removeDiscount 1 (world_of shop_discounted)) in
  Discount.lookup 1 (committed w1) = Some (mkDiscount 1 7 1 (Some 1000))
  /\ fst (OrderController.removeDiscount 1 (later 2000 w1)) =
       Ok (mkResponse 200 (BodyDiscount (mkDiscount 1 7 1 (Some 2000))))
  /\ fst (OrderController.removeDiscount 1 (later 2000 w1)) <> not_found "Discount".
Proof. repeat split. discriminate. Qed.

(** ** Failure answers *)

Lemma try_catch_caught {A} (c : M A) h w e w1 :
  c w = (Throw e, w1) -> try_catch c h w = h e w1.
Proof. intros H. unfold try_catch. now rewrite H. Qed.

Lemma trx_state_open w h :
  Database.trx_state w h = Some Open ->
  exists d, nth_error (trxs w) h = Some (mkTrx d Open).
Proof.
  unfold Database.trx_state. destruct (nth_error (trxs w) h) as [[d s]|]; simpl;
    intros H; inversion H. eauto.
Qed.

Lemma nth_error_set_nth {A} (l : list A) n x y :
  nth_error l n = Some y -> nth_error (Database.set_nth n x l) n = Some x.
Proof.
  revert n. induction l as [|a l IH]; intros [|n] H; simpl in *;
    try discriminate; auto.
Qed.

Lemma rollback_open h w :
  Database.trx_state w h = Some Open ->
  exists w',
    Database.rollback h w = (Ok tt, w') /\ committed w' = committed w /\
    Database.trx_state w' h = Some RolledBack.
Proof.
  intros H. destruct (trx_state_open _ _ H) as [d Hd].
  unfold Database.rollback, bind, gets, modify. simpl. rewrite Hd.
  eexists. split; [reflexivity|]. split; [reflexivity|].
  unfold Database.trx_state. simpl. now rewrite (nth_error_set_nth _ _ _ _ Hd).
Qed.

(** C9, as the handlers have it.  A failure inside the [try] block of
    [index], [show], [destroy], [applyDiscount] or [removeDiscount], and
    one inside [store] while its transaction is open, is answered with
    status 400, a fixed message and an [error] field that is the stack of
    the caught exception. *)
Theorem caught_failures_answer_with_message_and_stack :
  (forall status id page limit w e w1,
      OrderController.index_try status id page limit w = (Throw e, w1) ->
      answers_with_stack "This request not performed" e
        (fst (OrderController.index status id page limit w)))
  /\ (forall req w trx w0 e w1,
        Database.beginTransaction w = (Ok trx, w0) ->
        OrderController.store_try req trx w0 = (Throw e, w1) ->
        Database.trx_state w1 trx = Some Open ->
        answers_with_stack "This request not performed" e
          (fst (OrderController.store req w)))
  /\ (forall id w e w1,
        OrderController.show_try id w = (Throw e, w1) ->
        answers_with_stack "This request not performed" e
          (fst (OrderController.show id w)))
  /\ (forall lookup id w e w1,
        OrderController.destroy_try lookup id w = (Throw e, w1) ->
        answers_with_stack "This request not performed" e
          (fst (OrderController.destroy lookup id w)))
  /\ (forall eligible id code w e w1,
        OrderController.applyDiscount_try eligible id code w = (Throw e, w1) ->
        answers_with_stack "Error coupon clould not be apllied" e
          (fst (OrderController.applyDiscount eligible id code w)))
  /\ (forall discount_id w e w1,
        OrderController.removeDiscount_try discount_id w = (Throw e, w1) ->
        answers_with_stack "This request not performed" e
          (fst (OrderController.removeDiscount discount_id w))).
Proof.
  unfold answers_with_stack. repeat apply conj.
  - intros * H. unfold OrderController.index.
    now rewrite (try_catch_caught _ _ _ _ _ H).
  - intros * Hb Ht Ho. unfold OrderController.store, bind. rewrite Hb.
    rewrite (try_catch_caught _ _ _ _ _ Ht).
    destruct (rollback_open _ _ Ho) as (w' & Hr & _).
    unfold OrderController.store_catch, bind. now rewrite Hr.
  - intros * H. unfold OrderController.show.
    now rewrite (try_catch_caught _ _ _ _ _ H).
  - intros * H. unfold OrderController.destroy.
    now rewrite (try_catch_caught _ _ _ _ _ H).
  - intros * H. unfold OrderController.applyDiscount.
    now rewrite (try_catch_caught _ _ _ _ _ H).
  - intros * H. unfold OrderController.removeDiscount.
    now rewrite (try_catch_caught _ _ _ _ _ H).
Qed.

Lemma caught_failures_answer_with_message_and_stack_witness :
  answers_with_stack "This request not performed" (ModelNotFound "Order")
    (fst (OrderController.show 99 (world_of shop))).
Proof.
  apply (proj1 (proj2 (proj2 caught_failures_answer_with_message_and_stack))
           99 (world_of shop) (ModelNotFound "Order") (world_of shop)).
  reflexivity.
Defined.

(** An insert that fails while [store] persists: the
    answer sent to the caller has the stack of the driver's exception,
    call frames included, in its [error] field. *)
Lemma store_failure_sends_the_stack :
  fst (OrderController.store_try two_items 0
         (snd (Database.beginTransaction failing_mid_batch))) =
    Throw connection_lost
  /\ error_field (fst (OrderController.store two_items failing_mid_batch)) =
       Some (e_stack connection_lost)
  /\ e_stack connection_lost =
       "Error: Connection terminated unexpectedly
    at Connection.con.once
    at Client_PG._query
    at OrderService.syncItems".
Proof. repeat split. Qed.

(** ** Creating an order *)

Lemma frame_refl h w : frame h w w.
Proof. split; reflexivity. Qed.

Lemma frame_trans h w1 w2 w3 : frame h w1 w2 -> frame h w2 w3 -> frame h w1 w3.
Proof. intros [A1 B1] [A2 B2]. split; congruence. Qed.

Lemma keeps_ret h {A} (a : A) : keeps h (ret a).
Proof. intros w. apply frame_refl. Qed.

Lemma keeps_bind h {A B} (c : M A) (k : A -> M B) :
  keeps h c -> (forall a, keeps h (k a)) -> keeps h (bind c k).
Proof.
  intros Hc Hk w. unfold bind. specialize (Hc w).
  destruct (c w) as [[a|e] w1]; simpl in *; [|exact Hc].
  eapply frame_trans; [exact Hc|apply Hk].
Qed.

Lemma keeps_io h : keeps h io.
Proof.
  intros w. destruct (io_frame w) as (Hc & Ht & _). split; [exact Hc|].
  unfold Database.trx_state. now rewrite Ht.
Qed.

Lemma keeps_query h {A} (q : Db -> A * Db) : keeps h (Database.query h q).
Proof.
  unfold Database.query. apply keeps_bind; [apply keeps_io|]. intros _ w.
  unfold bind, gets, modify, throw. simpl.
  destruct (nth_error (trxs w) h) as [[d [| |]]|] eqn:E; simpl;
    try apply frame_refl.
  destruct (q d) as [a d']. simpl. split; [reflexivity|].
  unfold Database.trx_state. simpl.
  now rewrite (nth_error_set_nth _ _ _ _ E), E.
Qed.

Lemma keeps_forM_ h {A} (l : list A) (f : A -> M unit) :
  (forall a, keeps h (f a)) -> keeps h (forM_ l f).
Proof.
  intros Hf. induction l as [|a l IH]; simpl.
  - apply keeps_ret.
  - apply keeps_bind; auto.
Qed.

Lemma commit_refused h w e w' :
  Database.commit h w = (Throw e, w') -> frame h w w'.
Proof.
  unfold Database.commit, bind. pose proof (keeps_io h w) as Hio.
  destruct (io w) as [[[]|e0] w1]; simpl in *.
  - unfold gets, modify, throw.
    destruct (nth_error (trxs w1) h) as [[d [| |]]|]; intros H; inversion H;
      subst; exact Hio.
  - intros H. inversion H. subst. exact Hio.
Qed.

Lemma persist_refused req h w e w' :
  OrderController.store_persist req h w = (Throw e, w') -> frame h w w'.
Proof.
  unfold OrderController.store_persist, Order.create, bind.
  pose proof (keeps_query h (Order.insert (rq_user_id req) (rq_status req)) w) as H1.
  destruct (Database.query h _ w) as [[order|e1] w1]; simpl in H1.
  2:{ intros H. inversion H. now subst. }
  assert (H2 : keeps h
            (match rq_items req with
             | Some (p :: rest) => Service.syncItems order h (p :: rest)
             | _ => ret tt
             end)).
  { destruct (rq_items req) as [[|p rest]|]; try apply keeps_ret.
    apply keeps_forM_. intros a. apply keeps_query. }
  specialize (H2 w1).
  destruct (match rq_items req with
            | Some (p :: rest) => Service.syncItems order h (p :: rest)
            | _ => ret tt
            end w1) as [[[]|e2] w2]; simpl in H2.
  2:{ intros H. inversion H. subst. eapply frame_trans; eassumption. }
  destruct (Database.commit h w2) as [[[]|e3] w3] eqn:Hc.
  - discriminate.
  - intros H. inversion H. subst.
    eapply frame_trans; [eassumption|]. eapply frame_trans; [eassumption|].
    eapply commit_refused. exact Hc.
Qed.

Lemma beginTransaction_opens w h w0 :
  Database.beginTransaction w = (Ok h, w0) ->
  h = List.length (trxs w) /\ committed w0 = committed w /\
  nth_error (trxs w0) h = Some (mkTrx (committed w) Open).
Proof.
  unfold Database.beginTransaction, bind. pose proof (io_frame w) as (Hc & Ht & _).
  destruct (io w) as [[[]|e] w1]; simpl in *; [|discriminate].
  unfold gets, modify, ret. simpl. intros H. inversion H. subst. simpl.
  rewrite Ht, Hc. repeat split.
  rewrite nth_error_app2 by lia. now rewrite Nat.sub_diag.
Qed.

(** C4.  Once [store] has its transaction, a failure of any step up to
    and including the commit (the insert of the order, any insert of the
    item batch, the commit) makes the handler roll the transaction back
    and answer 400; the committed tables are then exactly those from
    before the call, so neither the order nor any of its items is left. *)
Theorem store_is_atomic req w trx w0 e w1 :
  Database.beginTransaction w = (Ok trx, w0) ->
  OrderController.store_persist req trx w0 = (Throw e, w1) ->
  let after := snd (OrderController.store req w) in
  fst (OrderController.store req w) = Ok (OrderController.not_performed e)
  /\ committed after = committed w
  /\ Database.trx_state after trx = Some RolledBack.
Proof.
  intros Hb Hp after.
  destruct (beginTransaction_opens _ _ _ Hb) as (_ & Hc0 & Hopen0).
  destruct (persist_refused _ _ _ _ _ Hp) as [Hc1 Hs1].
  assert (Ho : Database.trx_state w1 trx = Some Open).
  { rewrite Hs1. unfold Database.trx_state. now rewrite Hopen0. }
  destruct (rollback_open _ _ Ho) as (w' & Hr & Hc' & Hs').
  assert (Hrun : OrderController.store req w = (Ok (OrderController.not_performed e), w')).
  { unfold OrderController.store, bind. rewrite Hb.
    assert (Ht : OrderController.store_try req trx w0 = (Throw e, w1)).
    { unfold OrderController.store_try, bind. now rewrite Hp. }
    rewrite (try_catch_caught _ _ _ _ _ Ht).
    unfold OrderController.store_catch, bind. now rewrite Hr. }
  unfold after. rewrite Hrun. simpl. repeat split; congruence.
Qed.

Lemma store_is_atomic_witness :
  fst (OrderController.store two_items failing_mid_batch) =
    Ok (OrderController.not_performed connection_lost)
  /\ committed (snd (OrderController.store two_items failing_mid_batch)) = shop
  /\ Database.trx_state (snd (OrderController.store two_items failing_mid_batch)) 0 =
       Some RolledBack.
Proof.
  apply (store_is_atomic two_items failing_mid_batch 0
           (snd (Database.beginTransaction failing_mid_batch))
           connection_lost
           (snd (OrderController.store_persist two_items 0
                   (snd (Database.beginTransaction failing_mid_batch)))));
    reflexivity.
Defined.

Lemma fresh_id_above l x : In x l -> x < fresh_id l.
Proof.
  unfold fresh_id. induction l as [|y l IH]; cbn [fold_right In]; [tauto|].
  intros [->|H]; [lia|]. specialize (IH H). lia.
Qed.

Lemma fresh_id_new l : ~ In (fresh_id l) l.
Proof. intros H. apply fresh_id_above in H. lia. Qed.

Lemma add_items_appends order_id items l :
  exists news,
    add_items order_id items l = l ++ news /\
    map oi_payload news = items /\
    Forall (fun row => oi_order_id row = order_id) news.
Proof.
  revert l. induction items as [|p rest IH]; intros l; simpl.
  - exists []. rewrite app_nil_r. auto.
  - destruct (IH (l ++ [mkOrderItem (fresh_id (map oi_id l)) order_id p]))
      as (news & -> & Hm & Hf).
    exists (mkOrderItem (fresh_id (map oi_id l)) order_id p :: news).
    rewrite <- app_assoc. simpl. rewrite Hm. repeat split. now constructor.
Qed.

Lemma query_ok {A} h (q : Db -> A * Db) w a w' :
  Database.query h q w = (Ok a, w') ->
  exists d,
    nth_error (trxs w) h = Some (mkTrx d Open) /\ a = fst (q d) /\
    nth_error (trxs w') h = Some (mkTrx (snd (q d)) Open) /\
    committed w' = committed w.
Proof.
  unfold Database.query, bind. pose proof (io_frame w) as (Hc & Ht & _).
  destruct (io w) as [[[]|e] w1]; simpl in *; [|discriminate].
  unfold gets, modify, ret, throw. cbn beta iota. rewrite Ht.
  destruct (nth_error (trxs w) h) as [[d [| |]]|] eqn:E; try discriminate.
  destruct (q d) as [a' d'] eqn:Hq. simpl. intros H. inversion H. subst.
  exists d. rewrite Hq. simpl.
  rewrite (nth_error_set_nth _ _ _ _ E). auto.
Qed.

Lemma syncItems_ok order h items : forall w w' d,
  Service.syncItems order h items w = (Ok tt, w') ->
  nth_error (trxs w) h = Some (mkTrx d Open) ->
  exists d',
    nth_error (trxs w') h = Some (mkTrx d' Open) /\ committed w' = committed w /\
    orders d' = orders d /\
    order_items d' = add_items (o_id order) items (order_items d) /\
    coupons d' = coupons d /\ discounts d' = discounts d.
Proof.
  unfold Service.syncItems. induction items as [|p rest IH]; intros w w' d; simpl.
  - unfold ret. intros H Hd. inversion H. subst. exists d. auto 10.
  - unfold bind at 1.
    destruct (Database.query h (Service.insert_item (o_id order) p) w)
      as [[[]|e] w1] eqn:Hq; [|discriminate].
    intros Hrest Hd. apply query_ok in Hq. destruct Hq as (d0 & Hd0 & _ & Hd1 & Hc1).
    rewrite Hd in Hd0. injection Hd0 as <-.
    destruct (IH _ _ _ Hrest Hd1) as (d' & Hd' & Hc' & Ho & Hi & Hcp & Hds).
    exists d'. simpl in *. repeat split; congruence.
Qed.

Lemma commit_ok h w u w' :
  Database.commit h w = (Ok u, w') ->
  exists d, nth_error (trxs w) h = Some (mkTrx d Open) /\ committed w' = d.
Proof.
  unfold Database.commit, bind. pose proof (io_frame w) as (_ & Ht & _).
  destruct (io w) as [[[]|e] w1]; simpl in *; [|discriminate].
  unfold gets, modify, throw. cbn beta iota. rewrite Ht.
  destruct (nth_error (trxs w) h) as [[d [| |]]|]; try discriminate.
  intros H. inversion H. subst. exists d. auto.
Qed.

Lemma store_respond_reads order : effect (OrderController.store_respond order) eq.
Proof.
  unfold OrderController.store_respond, Order.find.
  apply effect_bind_read; [reflexivity|apply effect_direct_read|]. intros found.
  apply effect_bind_read; [reflexivity| |intros; apply effect_ret].
  destruct found; [apply effect_direct_read|apply effect_throw].
Qed.

(** The tables that a successful [store_persist] commits *)
Lemma persist_ok req h w order w' :
  OrderController.store_persist req h w = (Ok order, w') ->
  nth_error (trxs w) h = Some (mkTrx (committed w) Open) ->
  order = mkOrder (fresh_id (map o_id (orders (committed w))))
                  (rq_user_id req) (rq_status req) None
  /\ orders (committed w') = orders (committed w) ++ [order]
  /\ order_items (committed w') =
       add_items (o_id order) (requested req) (order_items (committed w)).
Proof.
  unfold OrderController.store_persist, Order.create, bind. intros H Hopen.
  destruct (Database.query h _ w) as [[o|e1] w1] eqn:Hq; [|discriminate].
  apply query_ok in Hq. destruct Hq as (d0 & Hd0 & Ho & Hd1 & Hc1).
  rewrite Hopen in Hd0. injection Hd0 as <-. simpl in Ho, Hd1.
  assert (Hsync : exists d2 w2,
    nth_error (trxs w2) h = Some (mkTrx d2 Open) /\
    orders d2 = orders (committed w) ++ [o] /\
    order_items d2 = add_items (o_id o) (requested req) (order_items (committed w)) /\
    Database.commit h w2 = (Ok tt, w') /\ order = o).
  { destruct (match rq_items req with
              | Some (p :: rest) => Service.syncItems o h (p :: rest)
              | _ => ret tt
              end w1) as [[[]|e2] w2] eqn:Hs; [|discriminate].
    destruct (Database.commit h w2) as [[[]|e3] w3] eqn:Hc; [|discriminate].
    unfold ret in H. inversion H. subst w3 order.
    unfold requested.
    destruct (rq_items req) as [[|p rest]|].
    - unfold ret in Hs. inversion Hs. subst w2.
      eexists _, w1. split; [exact Hd1|]. subst o. simpl. auto.
    - destruct (syncItems_ok _ _ _ _ _ _ Hs Hd1) as (d2 & Hd2 & _ & Ho2 & Hi2 & _).
      exists d2, w2. split; [exact Hd2|]. rewrite Ho2, Hi2. subst o. simpl. auto.
    - unfold ret in Hs. inversion Hs. subst w2.
      eexists _, w1. split; [exact Hd1|]. subst o. simpl. auto. }
  destruct Hsync as (d2 & w2 & Hd2 & Ho2 & Hi2 & Hc & ->).
  apply commit_ok in Hc. destruct Hc as (d & Hd & Hcw).
  rewrite Hd2 in Hd. injection Hd as <-. subst o. rewrite Hcw. auto.
Qed.

Lemma query_quiet {A} h (q : Db -> A * Db) w d :
  faults w = [] -> nth_error (trxs w) h = Some (mkTrx d Open) ->
  exists w',
    Database.query h q w = (Ok (fst (q d)), w') /\ faults w' = [] /\
    nth_error (trxs w') h = Some (mkTrx (snd (q d)) Open) /\
    committed w' = committed w.
Proof.
  intros Hf Hd. unfold Database.query, bind. rewrite (io_quiet _ Hf).
  unfold gets, modify, ret. cbn beta iota. rewrite Hd.
  destruct (q d) as [a d']. eexists. split; [reflexivity|]. simpl.
  rewrite (nth_error_set_nth _ _ _ _ Hd). auto.
Qed.

Lemma commit_quiet h w d :
  faults w = [] -> nth_error (trxs w) h = Some (mkTrx d Open) ->
  exists w', Database.commit h w = (Ok tt, w') /\ faults w' = [] /\ committed w' = d.
Proof.
  intros Hf Hd. unfold Database.commit, bind. rewrite (io_quiet _ Hf).
  unfold gets, modify. cbn beta iota. rewrite Hd.
  eexists. split; [reflexivity|]. simpl. auto.
Qed.

Lemma beginTransaction_quiet w :
  faults w = [] ->
  exists w0,
    Database.beginTransaction w = (Ok (List.length (trxs w)), w0) /\ faults w0 = [].
Proof.
  intros Hf. unfold Database.beginTransaction, bind. rewrite (io_quiet _ Hf).
  unfold gets, modify, ret. cbn beta iota. eexists. split; [reflexivity|]. exact Hf.
Qed.

Lemma syncItems_quiet order h items : forall w d,
  faults w = [] -> nth_error (trxs w) h = Some (mkTrx d Open) ->
  exists w' d',
    Service.syncItems order h items w = (Ok tt, w') /\ faults w' = [] /\
    nth_error (trxs w') h = Some (mkTrx d' Open).
Proof.
  unfold Service.syncItems. induction items as [|p rest IH]; intros w d Hf Hd; simpl.
  - exists w, d. auto.
  - destruct (query_quiet h (Service.insert_item (o_id order) p) w d Hf Hd)
      as (w1 & Hq & Hf1 & Hd1 & _).
    destruct (IH _ _ Hf1 Hd1) as (w' & d' & Hs & Hf' & Hd').
    exists w', d'. unfold bind at 1. rewrite Hq. auto.
Qed.

Lemma find_appended_key k user_id status l :
  ~ In k (map o_id l) ->
  find (fun o => o_id o =? k) (l ++ [mkOrder k user_id status None]) =
  Some (mkOrder k user_id status None).
Proof.
  intros Hk. induction l as [|y l IH]; cbn [app find o_id].
  - now rewrite Z.eqb_refl.
  - destruct (o_id y =? k) eqn:E.
    + apply Z.eqb_eq in E. elim Hk. now left.
    + apply IH. intros H. apply Hk. now right.
Qed.

Lemma lookup_inserted user_id status d :
  Order.lookup (o_id (fst (Order.insert user_id status d)))
               (snd (Order.insert user_id status d)) =
  Some (fst (Order.insert user_id status d)).
Proof.
  unfold Order.lookup, Order.insert. cbn [fst snd o_id orders set_orders].
  apply find_appended_key. apply fresh_id_new.
Qed.

(** With a store that answers every call, [store] answers 201. *)
Lemma store_quiet req w :
  faults w = [] ->
  exists view, fst (OrderController.store req w) = Ok (mkResponse 201 (BodyOrder view)).
Proof.
  intros Hf. destruct (beginTransaction_quiet w Hf) as (w0 & Hb & Hf0).
  destruct (beginTransaction_opens _ _ _ Hb) as (_ & Hc0 & Hopen).
  set (h := List.length (trxs w)) in *.
  destruct (query_quiet h (Order.insert (rq_user_id req) (rq_status req)) w0 _ Hf0 Hopen)
    as (w1 & Hq & Hf1 & Hd1 & _).
  set (o := fst (Order.insert (rq_user_id req) (rq_status req) (committed w))) in *.
  assert (Hsync : exists w2 d2,
    (match rq_items req with
     | Some (p :: rest) => Service.syncItems o h (p :: rest)
     | _ => ret tt
     end) w1 = (Ok tt, w2) /\ faults w2 = [] /\
    nth_error (trxs w2) h = Some (mkTrx d2 Open) /\
    Order.lookup (o_id o) d2 = Some o).
  { destruct (rq_items req) as [[|p rest]|] eqn:Hi.
    - exists w1. eexists. repeat split; eauto. apply lookup_inserted.
    - destruct (syncItems_quiet o h (p :: rest) w1 _ Hf1 Hd1) as (w2 & d2 & Hs & Hf2 & Hd2).
      exists w2, d2. repeat split; auto.
      destruct (syncItems_ok _ _ _ _ _ _ Hs Hd1) as (d2' & Hd2' & _ & Ho2 & _).
      rewrite Hd2 in Hd2'. injection Hd2' as <-.
      unfold Order.lookup. rewrite Ho2. apply lookup_inserted.
    - exists w1. eexists. repeat split; eauto. apply lookup_inserted. }
  destruct Hsync as (w2 & d2 & Hs & Hf2 & Hd2 & Hlook).
  destruct (commit_quiet h w2 d2 Hf2 Hd2) as (w3 & Hc & Hf3 & Hc3).
  exists (Transformer.view true false o d2).
  unfold OrderController.store, bind. rewrite Hb.
  unfold try_catch, OrderController.store_try, OrderController.store_persist,
    Order.create, bind.
  rewrite Hq, Hs, Hc. unfold ret at 1.
  unfold OrderController.store_respond, Order.find, bind.
  rewrite (direct_read_quiet (Order.lookup (o_id o)) w3 Hf3), Hc3, Hlook.
  unfold Transformer.item.
  rewrite (direct_read_quiet (Transformer.view true false o) w3 Hf3), Hc3. reflexivity.
Qed.

(** C7.  A [store] that answers 201 has committed exactly one new Order
    row, under a key no order had, with the [user_id] and [status] of the
    request, and after the rows that were there one new OrderItem row per
    entry of [items], in order, each attached to the new order; with
    [items] empty or absent no OrderItem row is added.  When the store
    answers every call, [store] does answer 201, for an empty or absent
    [items] as for any other. *)
Theorem store_inserts_order_and_items req w :
  (forall r w',
      OrderController.store req w = (Ok r, w') -> r_status r = 201 ->
      exists order news,
        orders (committed w') = orders (committed w) ++ [order]
        /\ o_user_id order = rq_user_id req
        /\ o_status order = rq_status req
        /\ ~ In (o_id order) (map o_id (orders (committed w)))
        /\ order_items (committed w') = order_items (committed w) ++ news
        /\ map oi_payload news = requested req
        /\ Forall (fun row => oi_order_id row = o_id order) news
        /\ (requested req = [] -> news = []))
  /\ (faults w = [] ->
      exists view,
        fst (OrderController.store req w) = Ok (mkResponse 201 (BodyOrder view))).
Proof.
  split; [|apply store_quiet].
  intros r w'. unfold OrderController.store, bind.
  destruct (Database.beginTransaction w) as [[trx|e] w0] eqn:Hb; [|discriminate].
  destruct (beginTransaction_opens _ _ _ Hb) as (_ & Hc0 & Hopen).
  unfold try_catch.
  destruct (OrderController.store_try req trx w0) as [[r0|e] w1] eqn:Ht.
  - intros H _. inversion H. subst r0 w1. clear H.
    unfold OrderController.store_try, bind in Ht.
    destruct (OrderController.store_persist req trx w0) as [[order|e] w2] eqn:Hp;
      [|discriminate].
    rewrite <- Hc0 in Hopen.
    destruct (persist_ok _ _ _ _ _ Hp Hopen) as (Ho & Hords & Hitems).
    pose proof (store_respond_reads order w2) as Hread. rewrite Ht in Hread.
    simpl in Hread. rewrite <- Hread, Hc0 in *.
    destruct (add_items_appends (o_id order) (requested req)
                (order_items (committed w))) as (news & Hnews & Hmap & Hall).
    exists order, news. rewrite Hords, Hitems, Hnews.
    repeat split; auto.
    + now subst order.
    + now subst order.
    + subst order. simpl. apply fresh_id_new.
    + intros Hnone. rewrite Hnone in Hmap. now destruct news.
  - unfold OrderController.store_catch, bind.
    destruct (Database.rollback trx w1) as [[[]|e'] w2]; [|discriminate].
    unfold ret. intros H Hs. inversion H. subst r. discriminate.
Qed.

Lemma store_inserts_order_and_items_witness :
  OrderController.store pending_P1 (world_of empty_db) =
  (Ok (mkResponse 201
         (BodyOrder (mkView (mkOrder 1 (Some 5) (Some "pending") None)
                            [mkOrderItem 1 1 (mkItem "P1" 2)] []))),
   mkWorld (mkDb [mkOrder 1 (Some 5) (Some "pending") None]
                 [mkOrderItem 1 1 (mkItem "P1" 2)] [] [])
           [mkTrx (mkDb [mkOrder 1 (Some 5) (Some "pending") None]
                        [mkOrderItem 1 1 (mkItem "P1" 2)] [] []) Committed]
           [] 1000 0)
  /\ exists order news,
       orders (mkDb [mkOrder 1 (Some 5) (Some "pending") None]
                    [mkOrderItem 1 1 (mkItem "P1" 2)] [] []) = [] ++ [order]
       /\ o_user_id order = Some 5
       /\ o_status order = Some "pending"
       /\ ~ In (o_id order) []
       /\ [mkOrderItem 1 1 (mkItem "P1" 2)] = [] ++ news
       /\ map oi_payload news = [mkItem "P1" 2]
       /\ Forall (fun row => oi_order_id row = o_id order) news
       /\ ([mkItem "P1" 2] = [] -> news = []).
Proof.
  split; [reflexivity|].
  apply (proj1 (store_inserts_order_and_items pending_P1 (world_of empty_db))
           (mkResponse 201
              (BodyOrder (mkView (mkOrder 1 (Some 5) (Some "pending") None)
                                 [mkOrderItem 1 1 (mkItem "P1" 2)] [])))
           (mkWorld (mkDb [mkOrder 1 (Some 5) (Some "pending") None]
                          [mkOrderItem 1 1 (mkItem "P1" 2)] [] [])
                    [mkTrx (mkDb [mkOrder 1 (Some 5) (Some "pending") None]
                                 [mkOrderItem 1 1 (mkItem "P1" 2)] [] []) Committed]
                    [] 1000 0));
    reflexivity.
Defined.

(** ** Updating an order *)

(** A failure inside the [try] block of [update] is never answered: the
    [catch] block throws in its turn, on the name [trx]. *)
Lemma update_failure_escapes id req w e w1 :
  OrderController.update_try id req w = (Throw e, w1) ->
  OrderController.update id req w = (Throw (ReferenceError "trx" "update"), w1).
Proof.
  intros H. unfold OrderController.update.
  now rewrite (try_catch_caught _ _ _ _ _ H).
Qed.

Lemma update_never_answers_400 id req w r w' :
  OrderController.update id req w = (Ok r, w') -> r_status r = 200.
Proof.
  unfold OrderController.update, try_catch.
  destruct (OrderController.update_try id req w) as [[r0|e] w1] eqn:Ht.
  - intros H. inversion H. subst. clear H.
    unfold OrderController.update_try, bind in Ht.
    repeat match type of Ht with
           | (match ?c with (_, _) => _ end) = _ =>
               destruct c as [[?|?] ?]; try discriminate
           end.
    unfold ret in Ht. inversion Ht. reflexivity.
  - discriminate.
Qed.

(** C5.  Order 7 exists and the request sets its status; the UPDATE
    issued by [order.save(trx)] fails.  The [catch] block then throws a
    ReferenceError on [trx] instead of rolling back: the handler ends
    with that second exception, sends no answer, and leaves the
    transaction open, neither committed nor rolled back.  The committed
    tables are as before only because nothing was committed. *)
Theorem update_failure_is_not_rolled_back :
  fst (OrderController.update_try 7 mark_paid failing_on_save) = Throw connection_lost
  /\ fst (OrderController.update 7 mark_paid failing_on_save) =
       Throw (ReferenceError "trx" "update")
  /\ Database.trx_state (snd (OrderController.update 7 mark_paid failing_on_save)) 0 =
       Some Open
  /\ committed (snd (OrderController.update 7 mark_paid failing_on_save)) =
       shop_with_items.
Proof. repeat split. Qed.

Lemma filter_all {A} (f : A -> bool) l :
  (forall x, In x l -> f x = true) -> filter f l = l.
Proof.
  induction l as [|x l IH]; intros H; simpl; [reflexivity|].
  rewrite (H x (or_introl eq_refl)). f_equal. apply IH. intros y Hy. apply H. now right.
Qed.

Lemma filter_none {A} (f : A -> bool) l :
  (forall x, In x l -> f x = false) -> filter f l = [].
Proof.
  induction l as [|x l IH]; intros H; simpl; [reflexivity|].
  rewrite (H x (or_introl eq_refl)). apply IH. intros y Hy. apply H. now right.
Qed.

Lemma filter_twice {A} (f g : A -> bool) l :
  filter f (filter g l) = filter (fun x => f x && g x) l.
Proof.
  induction l as [|x l IH]; simpl; [reflexivity|].
  destruct (g x); simpl; rewrite ?andb_true_r, ?andb_false_r;
    [destruct (f x); now rewrite IH|exact IH].
Qed.

Lemma apply_deletes rows : forall d,
  order_items (Service.apply_writes (map (fun r => DeleteItem (oi_id r)) rows) d) =
  filter (fun r => negb (existsb (fun x => oi_id r =? oi_id x) rows)) (order_items d).
Proof.
  unfold Service.apply_writes. induction rows as [|x rows IH]; intros d; simpl.
  - symmetry. apply filter_all. reflexivity.
  - rewrite IH. simpl. rewrite filter_twice.
    apply filter_ext. intros r.
    destruct (oi_id r =? oi_id x); simpl; [now rewrite andb_false_r|now rewrite andb_true_r].
Qed.

(** When every write of the reconciliation lands, an empty list leaves
    the order without items. *)
Lemma reconciled_to_empty order d :
  Order.items_of (o_id order)
    (Service.apply_writes (Service.syncUpdateItems_writes order (Some []) d) d) = [].
Proof.
  unfold Service.syncUpdateItems_writes. simpl. rewrite app_nil_r.
  rewrite filter_all by reflexivity.
  unfold Order.items_of at 1. rewrite apply_deletes.
  rewrite filter_twice. apply filter_none. intros r Hr.
  destruct (oi_order_id r =? o_id order) eqn:E; [|reflexivity].
  rewrite andb_true_l. apply negb_false_iff. apply existsb_exists.
  exists r. split; [|apply Z.eqb_refl].
  unfold Order.items_of. apply filter_In. auto.
Qed.

(** C6.  Order 7 has three items and the request asks for none.  The
    reconciliation is started without being awaited, so the commit does
    not wait for it: when one of its three deletes reaches the
    transaction before the COMMIT, the handler answers 200 and the order
    keeps two items.  Only when every write gets there first (as it
    would under [await]) does the order end with the requested list. *)
Theorem update_commits_before_items_are_reconciled :
  let one_landed := mkWorld shop_with_items [] [] 1000 1 in
  let all_landed := mkWorld shop_with_items [] [] 1000 3 in
  Service.syncUpdateItems_writes order7 (Some []) shop_with_items =
    [DeleteItem 1; DeleteItem 2; DeleteItem 3]
  /\ fst (OrderController.update 7 no_items one_landed) =
       Ok (mkResponse 200
             (BodyOrder (mkView order7
                           [mkOrderItem 2 7 (mkItem "P2" 1);
                            mkOrderItem 3 7 (mkItem "P3" 4)] [])))
  /\ Order.items_of 7 (committed (snd (OrderController.update 7 no_items one_landed))) =
       [mkOrderItem 2 7 (mkItem "P2" 1); mkOrderItem 3 7 (mkItem "P3" 4)]
  /\ Order.items_of 7 (committed (snd (OrderController.update 7 no_items all_landed))) = []
  /\ (let created := snd (OrderController.store pending_P1 (world_of empty_db)) in
      Order.items_of 1 (committed created) = [mkOrderItem 1 1 (mkItem "P1" 2)] /\
      Order.items_of 1 (committed (snd (OrderController.update 1 no_items created))) =
        [mkOrderItem 1 1 (mkItem "P1" 2)]).
Proof. repeat split. Qed.

(** ** Handlers that only read *)

Lemma effect_bind_write {A B} (c : M A) (k : A -> M B) R :
  effect c R -> (forall a, effect (k a) eq) -> effect (bind c k) R.
Proof.
  intros Hc Hk w. unfold bind. specialize (Hc w).
  destruct (c w) as [[a|e] w1]; simpl in *; [|exact Hc].
  now rewrite <- (Hk a w1).
Qed.

Lemma effect_catch {A} (c : M A) (h : Exn -> M A) R :
  effect c R -> (forall e, effect (h e) eq) -> effect (try_catch c h) R.
Proof.
  intros Hc Hh w. unfold try_catch. specialize (Hc w).
  destruct (c w) as [[a|e] w1]; simpl in *; [exact Hc|].
  now rewrite <- (Hh e w1).
Qed.

Lemma effect_findOrFail_order id : effect (Order.findOrFail id) eq.
Proof.
  unfold Order.findOrFail, Order.find.
  apply effect_bind_read; [reflexivity|apply effect_direct_read|].
  intros [o|]; [apply effect_ret|apply effect_throw].
Qed.

Lemma effect_item a b o : effect (Transformer.item a b o) eq.
Proof.
  destruct o; simpl; [apply effect_direct_read|apply effect_throw].
Qed.

Lemma index_try_reads status id page limit :
  effect (OrderController.index_try status id page limit) eq.
Proof.
  unfold OrderController.index_try, Order.paginate, Transformer.paginate.
  apply effect_bind_read; [reflexivity| |].
  - apply (effect_direct_read
             (fun d => mkRawPage
                         (List.length (filter (OrderController.index_where status id) (orders d)))
                         limit page
                         (firstn limit
                            (skipn (limit * (page - 1))
                               (filter (OrderController.index_where status id) (orders d)))))).
  - intros rows. apply effect_bind_read; [reflexivity| |intros; apply effect_ret].
    apply (effect_direct_read
             (fun d => mkPage (rp_total rows) (rp_perPage rows) (rp_page rows)
                         (map (fun o => Transformer.view true false o d) (rp_rows rows)))).
Qed.

Lemma show_try_reads id : effect (OrderController.show_try id) eq.
Proof.
  unfold OrderController.show_try.
  apply effect_bind_read; [reflexivity|apply effect_findOrFail_order|]. intros o.
  apply effect_bind_read; [reflexivity|apply effect_item|intros; apply effect_ret].
Qed.

(** X1.  Whatever the store does to their calls, [index] and [show]
    leave the committed tables as they are, and they always answer: the
    handler ends with a response of status 200 or 400, never with an
    exception of its own. *)
Theorem index_and_show_only_read :
  (forall status id page limit,
      effect (OrderController.index status id page limit) eq)
  /\ (forall id, effect (OrderController.show id) eq)
  /\ (forall status id page limit w,
        exists r, fst (OrderController.index status id page limit w) = Ok r /\
                  (r_status r = 200 \/ r_status r = 400))
  /\ (forall id w,
        exists r, fst (OrderController.show id w) = Ok r /\
                  (r_status r = 200 \/ r_status r = 400)).
Proof.
  split; [|split; [|split]].
  - intros. apply effect_catch; [apply index_try_reads|intros; apply effect_ret].
  - intros. apply effect_catch; [apply show_try_reads|intros; apply effect_ret].
  - intros. unfold OrderController.index, try_catch.
    destruct (OrderController.index_try status id page limit w) as [[r|e] w1] eqn:Ht.
    + exists r. split; [reflexivity|]. left.
      unfold OrderController.index_try, bind in Ht.
      repeat match type of Ht with
             | (match ?c with (_, _) => _ end) = _ =>
                 destruct c as [[?|?] ?]; try discriminate
             end.
      unfold ret in Ht. inversion Ht. reflexivity.
    + eexists. split; [reflexivity|]. now right.
  - intros. unfold OrderController.show, try_catch.
    destruct (OrderController.show_try id w) as [[r|e] w1] eqn:Ht.
    + exists r. split; [reflexivity|]. left.
      unfold OrderController.show_try, bind in Ht.
      repeat match type of Ht with
             | (match ?c with (_, _) => _ end) = _ =>
                 destruct c as [[?|?] ?]; try discriminate
             end.
      unfold ret in Ht. inversion Ht. reflexivity.
    + eexists. split; [reflexivity|]. now right.
Qed.

(** X2.  When the store answers, [show] on a key that an order carries
    answers 200 with that order, its items and its discounts, whatever
    the order's [deleted_at] (the lookup has no condition on it); on a
    key that no order carries it answers 400 with the missing-row error.
    In both cases the world is left as it was. *)
Theorem show_answers_by_key id w :
  faults w = [] ->
  (forall O, Order.lookup id (committed w) = Some O ->
             OrderController.show id w =
             (Ok (mkResponse 200
                    (BodyOrder (mkView O (Order.items_of id (committed w))
                                         (filter (fun r => d_order_id r =? id)
                                                 (discounts (committed w)))))), w))
  /\ (Order.lookup id (committed w) = None ->
      OrderController.show id w = (not_found "Order", w)).
Proof.
  intros Hf. split.
  - intros O HO. unfold OrderController.show, OrderController.show_try, try_catch, bind.
    rewrite (findOrFail_order_quiet _ _ _ Hf HO). unfold Transformer.item.
    rewrite (direct_read_quiet (Transformer.view true true O) w Hf).
    unfold Transformer.view. now rewrite (lookup_order_id _ _ _ HO).
  - intros HO. unfold OrderController.show, OrderController.show_try, try_catch, bind,
      Order.findOrFail, Order.find, bind.
    rewrite (direct_read_quiet (Order.lookup id) w Hf), HO. reflexivity.
Qed.

Lemma show_answers_by_key_witness :
  OrderController.show 7 (world_of removed_order)
  = (Ok (mkResponse 200
           (BodyOrder (mkView (mkOrder 7 (Some 5) (Some "pending") (Some 900))
                              [mkOrderItem 1 7 (mkItem "P1" 2)] []))),
     world_of removed_order).
Proof.
  apply (proj1 (show_answers_by_key 7 (world_of removed_order) eq_refl)
           (mkOrder 7 (Some 5) (Some "pending") (Some 900))).
  reflexivity.
Defined.

(** ** Pages of the listing *)




(** ** The id filter *)










(** ** Coupon codes *)

Lemma upper_ascii_idem c : upper_ascii (upper_ascii c) = upper_ascii c.
Proof. destruct c as [[] [] [] [] [] [] [] []]; reflexivity. Qed.

Lemma toUpperCase_idem s : toUpperCase (toUpperCase s) = toUpperCase s.
Proof.
  induction s as [|c s IH]; simpl; [reflexivity|].
  now rewrite upper_ascii_idem, IH.
Qed.

Lemma coupon_missing_quiet eligible id code w :
  faults w = [] ->
  find (fun c => String.eqb (c_code c) (toUpperCase code)) (coupons (committed w)) = None ->
  OrderController.applyDiscount eligible id code w =
  (Ok (mkResponse 400
         (BodyError "Error coupon clould not be apllied"
            (e_stack (ModelNotFound "Coupon")))), w).
Proof.
  intros Hf Hnone.
  unfold OrderController.applyDiscount, OrderController.applyDiscount_try,
    OrderController.applyDiscount_decide, Coupon.findByOrFail_code, try_catch, bind.
  rewrite (direct_read_quiet
             (fun d => find (fun c => String.eqb (c_code c) (toUpperCase code)) (coupons d))
             w Hf), Hnone.
  reflexivity.
Qed.

(** X5.  The code of the request is upper-cased before the lookup and
    compared as it is with the stored codes.  So the case of the letters
    in the request does not matter (a code and its upper-case form give
    the same run); a coupon that is found has a stored code that is its
    own upper-case form; and when the store answers and no stored code
    is, every code is answered with the missing-coupon error. *)
Theorem coupon_codes_resolve_in_upper_case :
  (forall eligible id code w,
      OrderController.applyDiscount eligible id (toUpperCase code) w =
      OrderController.applyDiscount eligible id code w)
  /\ (forall code w C w',
        Coupon.findByOrFail_code (toUpperCase code) w = (Ok C, w') ->
        toUpperCase (c_code C) = c_code C)
  /\ (forall eligible id code w,
        faults w = [] ->
        (forall C, In C (coupons (committed w)) -> toUpperCase (c_code C) <> c_code C) ->
        OrderController.applyDiscount eligible id code w =
        (Ok (mkResponse 400
               (BodyError "Error coupon clould not be apllied"
                  (e_stack (ModelNotFound "Coupon")))), w)).
Proof.
  split; [|split].
  - intros. unfold OrderController.applyDiscount, OrderController.applyDiscount_try,
      OrderController.applyDiscount_decide.
    now rewrite toUpperCase_idem.
  - intros code w C w'. unfold Coupon.findByOrFail_code, bind.
    destruct (direct_cases
                (fun d => (find (fun c => String.eqb (c_code c) (toUpperCase code))
                                (coupons d), d)) w)
      as [(e & rest & ->)|(rest & ->)]; [discriminate|].
    cbn [fst snd].
    destruct (find _ (coupons (committed w))) as [C'|] eqn:HC; [|discriminate].
    unfold ret. intros H. inversion H. subst C'.
    apply find_some in HC. destruct HC as [_ HC]. apply String.eqb_eq in HC.
    rewrite HC. apply toUpperCase_idem.
  - intros eligible id code w Hf Hall. apply coupon_missing_quiet; [exact Hf|].
    destruct (find _ (coupons (committed w))) as [C|] eqn:HC; [|reflexivity].
    apply find_some in HC. destruct HC as [Hin HC]. apply String.eqb_eq in HC.
    elim (Hall C Hin). rewrite HC. apply toUpperCase_idem.
Qed.

Lemma coupon_codes_resolve_in_upper_case_witness :
  OrderController.applyDiscount any_eligible 7 "save10" (world_of lower_case_shop) =
  (Ok (mkResponse 400
         (BodyError "Error coupon clould not be apllied"
            (e_stack (ModelNotFound "Coupon")))), world_of lower_case_shop).
Proof.
  apply (proj2 (proj2 coupon_codes_resolve_in_upper_case)
           any_eligible 7 "save10" (world_of lower_case_shop) eq_refl).
  intros C [<-|[]]. discriminate.
Defined.

(** X6.  When the store answers, [applyDiscount] looks the coupon up
    before the order: an unknown code is answered with the missing-coupon
    error whether or not the order exists, a known code on an unknown
    order with the missing-order error; in both cases nothing is
    written. *)
Theorem applyDiscount_lookups_fail_in_order eligible id code w :
  faults w = [] ->
  (find (fun c => String.eqb (c_code c) (toUpperCase code)) (coupons (committed w)) = None ->
   OrderController.applyDiscount eligible id code w =
   (Ok (mkResponse 400
          (BodyError "Error coupon clould not be apllied"
             (e_stack (ModelNotFound "Coupon")))), w))
  /\ (forall C,
        find (fun c => String.eqb (c_code c) (toUpperCase code)) (coupons (committed w))
          = Some C ->
        Order.lookup id (committed w) = None ->
        OrderController.applyDiscount eligible id code w =
        (Ok (mkResponse 400
               (BodyError "Error coupon clould not be apllied"
                  (e_stack (ModelNotFound "Order")))), w)).
Proof.
  intros Hf. split; [apply coupon_missing_quiet; exact Hf|].
  intros C HC HO.
  unfold OrderController.applyDiscount, OrderController.applyDiscount_try,
    OrderController.applyDiscount_decide, Coupon.findByOrFail_code, try_catch, bind.
  rewrite (direct_read_quiet
             (fun d => find (fun c => String.eqb (c_code c) (toUpperCase code)) (coupons d))
             w Hf), HC.
  unfold ret at 1. unfold Order.findOrFail, Order.find, bind.
  rewrite (direct_read_quiet (Order.lookup id) w Hf), HO. reflexivity.
Qed.

Lemma applyDiscount_lookups_fail_in_order_witness :
  OrderController.applyDiscount any_eligible 99 "nothing" (world_of shop) =
  (Ok (mkResponse 400
         (BodyError "Error coupon clould not be apllied"
            (e_stack (ModelNotFound "Coupon")))), world_of shop).
Proof.
  apply (proj1 (applyDiscount_lookups_fail_in_order any_eligible 99 "nothing"
                  (world_of shop) eq_refl)).
  reflexivity.
Defined.

(** ** Removing and re-applying *)

Lemma removeDiscount_outcome id w :
  let d := committed w in
  let d' := committed (snd (OrderController.removeDiscount id w)) in
  d' = d \/
  exists row,
    Discount.lookup id d = Some row /\
    d' = snd (Discount.write (Discount.merge_deleted_at row (now w)) d).
Proof.
  unfold OrderController.removeDiscount, OrderController.removeDiscount_try,
    Discount.findOrFail, Discount.save, try_catch, bind, ret, throw, gets.
  cbn zeta.
  direct_step; [now left|].
  destruct (Discount.lookup id (committed w)) as [row|] eqn:Hrow; [|now left].
  cbn [now with_committed with_faults].
  direct_step; [now left|].
  cbn [committed with_committed with_faults]. right. exists row. auto.
Qed.

(** X7.  Whatever the store does to its calls, [removeDiscount] always
    answers, touches no table but the discounts, and there neither adds
    nor removes a row nor changes a key: rows under another key stay as
    they are, and a row that differs afterwards carries the requested key
    and the current instant as [deleted_at]. *)
Theorem removeDiscount_only_stamps id w :
  let d := committed w in
  let d' := committed (snd (OrderController.removeDiscount id w)) in
  (exists r, fst (OrderController.removeDiscount id w) = Ok r)
  /\ orders d' = orders d /\ order_items d' = order_items d /\ coupons d' = coupons d
  /\ map d_id (discounts d') = map d_id (discounts d)
  /\ (forall r, In r (discounts d) -> d_id r <> id -> In r (discounts d'))
  /\ (forall r, In r (discounts d') ->
                In r (discounts d) \/ (d_id r = id /\ d_deleted_at r = Some (now w))).
Proof.
  intros d d'. split.
  { unfold OrderController.removeDiscount, try_catch.
    destruct (OrderController.removeDiscount_try id w) as [[r|e] w1];
      eexists; reflexivity. }
  destruct (removeDiscount_outcome id w) as [H|(row & Hrow & H)]; fold d d' in H;
    rewrite H.
  { repeat split; auto. }
  pose proof (lookup_discount_id _ _ _ Hrow) as Hid.
  unfold Discount.write. cbn [snd orders order_items coupons discounts set_discounts].
  cbn [Discount.merge_deleted_at d_id]. rewrite Hid.
  repeat split.
  - rewrite map_map. apply map_ext_in. intros x _.
    destruct (d_id x =? id) eqn:E; [|reflexivity].
    apply Z.eqb_eq in E. simpl. congruence.
  - intros r Hr Hne. apply in_map_iff. exists r. split; [|exact Hr].
    destruct (d_id r =? id) eqn:E; [|reflexivity].
    apply Z.eqb_eq in E. now elim Hne.
  - intros r Hr. apply in_map_iff in Hr. destruct Hr as (x & Hx & Hin).
    destruct (d_id x =? id) eqn:E.
    + right. subst r. simpl. auto.
    + left. now subst r.
Qed.

Lemma find_all_false {A} (f : A -> bool) l :
  (forall x, In x l -> f x = false) -> find f l = None.
Proof.
  induction l as [|x l IH]; intros H; simpl; [reflexivity|].
  rewrite (H x (or_introl eq_refl)). apply IH. intros y Hy. apply H. now right.
Qed.

Lemma find_after_none {A} (f : A -> bool) l l' :
  find f l = None -> find f (l ++ l') = find f l'.
Proof.
  induction l as [|x l IH]; simpl; [reflexivity|].
  destruct (f x); [discriminate|exact IH].
Qed.

Lemma fresh_key_unused l :
  find (fun r => d_id r =? fresh_id (map d_id l)) l = None.
Proof.
  apply find_all_false. intros x Hx. apply Z.eqb_neq. intros E.
  apply (fresh_id_new (map d_id l)). rewrite <- E. now apply in_map.
Qed.

Lemma stamp_appended l key order_id coupon_id t :
  find (fun r => d_id r =? key) l = None ->
  map (fun x => if d_id x =? key then mkDiscount key order_id coupon_id (Some t) else x)
      (l ++ [mkDiscount key order_id coupon_id None]) =
  l ++ [mkDiscount key order_id coupon_id (Some t)].
Proof.
  intros Hnone. rewrite map_app. simpl. rewrite Z.eqb_refl. f_equal.
  rewrite <- (map_id l) at 2. apply map_ext_in. intros x Hx.
  now rewrite (find_none _ _ Hnone x Hx).
Qed.

Lemma applyDiscount_quiet eligible code O C w :
  faults w = [] ->
  find (fun c => String.eqb (c_code c) (toUpperCase code)) (coupons (committed w)) = Some C ->
  Order.lookup (o_id O) (committed w) = Some O ->
  snd (OrderController.applyDiscount eligible (o_id O) code w) =
  with_committed
    (if eligible (committed w) O C &&
        OrderController.canApplyToOrder
          (List.length (Order.active_discounts (o_id O) (committed w))) C
     then ensure_link (o_id O) (c_id C) (committed w) else committed w) w.
Proof.
  intros Hf HC HO.
  unfold OrderController.applyDiscount, OrderController.applyDiscount_try, try_catch, bind.
  destruct (applyDiscount_decide_quiet eligible code O C w Hf HC HO) as (info & -> & _).
  reflexivity.
Qed.

Lemma removeDiscount_quiet id row w :
  faults w = [] -> Discount.lookup id (committed w) = Some row ->
  snd (OrderController.removeDiscount id w) =
  with_committed (snd (Discount.write (Discount.merge_deleted_at row (now w)) (committed w))) w.
Proof.
  intros Hf Hrow.
  unfold OrderController.removeDiscount, OrderController.removeDiscount_try,
    Discount.findOrFail, Discount.save, try_catch, bind.
  rewrite (direct_read_quiet (Discount.lookup id) w Hf), Hrow.
  unfold ret at 1, gets. rewrite direct_quiet by assumption. reflexivity.
Qed.

(** X8.  Applying, removing, applying again.  When the store answers and
    a coupon is applied to an order that no row links it to yet, one
    active row is added; removing that discount stamps the row; applying
    the same coupon to the same order again then writes nothing, since
    [findOrCreate] finds the stamped row: the order stays without an
    active discount for that coupon. *)
Theorem removed_coupon_is_not_reapplied eligible code O C w :
  faults w = [] ->
  find (fun c => String.eqb (c_code c) (toUpperCase code)) (coupons (committed w)) = Some C ->
  Order.lookup (o_id O) (committed w) = Some O ->
  ~ linked (o_id O) (c_id C) (committed w) ->
  eligible (committed w) O C &&
    OrderController.canApplyToOrder
      (List.length (Order.active_discounts (o_id O) (committed w))) C = true ->
  let key := fresh_id (map d_id (discounts (committed w))) in
  let w1 := snd (OrderController.applyDiscount eligible (o_id O) code w) in
  let w2 := snd (OrderController.removeDiscount key w1) in
  let w3 := snd (OrderController.applyDiscount eligible (o_id O) code w2) in
  discounts (committed w1) =
    discounts (committed w) ++ [mkDiscount key (o_id O) (c_id C) None]
  /\ discounts (committed w2) =
       discounts (committed w) ++ [mkDiscount key (o_id O) (c_id C) (Some (now w))]
  /\ committed w3 = committed w2
  /\ active_links (o_id O) (c_id C) (discounts (committed w3)) = 0%nat.
Proof.
  intros Hf HC HO Hfresh Hallowed key w1 w2 w3.
  assert (Hnone : Discount.lookup_pair (o_id O) (c_id C) (committed w) = None).
  { unfold linked in Hfresh.
    destruct (Discount.lookup_pair (o_id O) (c_id C) (committed w)); [|reflexivity].
    elim Hfresh. discriminate. }
  assert (H1 : w1 = with_committed (snd (Discount.insert (o_id O) (c_id C) (committed w))) w).
  { unfold w1. rewrite (applyDiscount_quiet eligible code O C w Hf HC HO), Hallowed.
    unfold ensure_link. now rewrite Hnone. }
  assert (Hd1 : discounts (committed w1) =
                discounts (committed w) ++ [mkDiscount key (o_id O) (c_id C) None]).
  { rewrite H1. reflexivity. }
  assert (Hrow : Discount.lookup key (committed w1) =
                 Some (mkDiscount key (o_id O) (c_id C) None)).
  { unfold Discount.lookup. rewrite Hd1.
    rewrite (find_after_none _ _ _ (fresh_key_unused (discounts (committed w)))).
    simpl. now rewrite Z.eqb_refl. }
  assert (H2 : w2 = with_committed
                      (snd (Discount.write (mkDiscount key (o_id O) (c_id C) (Some (now w)))
                              (committed w1))) w1).
  { unfold w2.
    rewrite (removeDiscount_quiet key (mkDiscount key (o_id O) (c_id C) None) w1);
      [|now rewrite H1|exact Hrow].
    rewrite H1. reflexivity. }
  assert (Hd2 : discounts (committed w2) =
                discounts (committed w) ++ [mkDiscount key (o_id O) (c_id C) (Some (now w))]).
  { rewrite H2. unfold Discount.write.
    cbn [committed with_committed snd discounts set_discounts d_id].
    rewrite Hd1. apply stamp_appended. apply fresh_key_unused. }
  assert (Hlinked2 : Discount.lookup_pair (o_id O) (c_id C) (committed w2) <> None).
  { unfold Discount.lookup_pair. rewrite Hd2.
    unfold Discount.lookup_pair in Hnone. rewrite (find_after_none _ _ _ Hnone).
    simpl. rewrite !Z.eqb_refl. discriminate. }
  assert (H3 : committed w3 = committed w2).
  { destruct (applyDiscount_outcome eligible (o_id O) code w2)
      as [H|(O' & C' & HO' & HC' & _ & _ & Hnone' & _)]; [exact H|].
    exfalso. rewrite H2, H1 in HO', HC'.
    unfold Order.lookup in HO', HO. cbn in HO', HC'.
    rewrite HO in HO'. rewrite HC in HC'.
    injection HO' as <-. injection HC' as <-. now apply Hlinked2. }
  repeat split; auto.
  rewrite H3, Hd2, active_links_app, (unlinked_no_active_links _ _ _ Hnone).
  unfold active_links. simpl. now rewrite !Z.eqb_refl.
Qed.

Lemma removed_coupon_is_not_reapplied_witness :
  committed (snd (OrderController.applyDiscount any_eligible 7 "save10"
                    (snd (OrderController.removeDiscount 1
                            (snd (OrderController.applyDiscount any_eligible 7 "save10"
                                    (world_of shop)))))))
  = mkDb [order7] [] [SAVE10] [mkDiscount 1 7 1 (Some 1000)].
Proof.
  refine (eq_trans
            (proj1 (proj2 (proj2
               (removed_coupon_is_not_reapplied any_eligible "save10" order7 SAVE10
                  (world_of shop) eq_refl eq_refl eq_refl
                  (fun H => H eq_refl) eq_refl)))) _).
  reflexivity.
Defined.

(** ** Every outcome of [store] *)

Lemma beginTransaction_reads w :
  committed (snd (Database.beginTransaction w)) = committed w.
Proof.
  unfold Database.beginTransaction, bind. pose proof (io_frame w) as (Hc & _).
  destruct (io w) as [[[]|e] w1]; simpl in *; exact Hc.
Qed.

Lemma rollback_complete h w s :
  Database.trx_state w h = Some s -> s <> Open ->
  Database.rollback h w = (Throw TransactionComplete, w).
Proof.
  unfold Database.trx_state, Database.rollback, bind, gets, throw. simpl.
  destruct (nth_error (trxs w) h) as [[d [| |]]|]; simpl; intros H Hs;
    inversion H; subst; try reflexivity. now elim Hs.
Qed.

Lemma commit_ok_state h w u w' :
  Database.commit h w = (Ok u, w') -> Database.trx_state w' h = Some Committed.
Proof.
  unfold Database.commit, bind. pose proof (io_frame w) as (_ & Ht & _).
  destruct (io w) as [[[]|e] w1]; simpl in *; [|discriminate].
  unfold gets, modify, throw. cbn beta iota. rewrite Ht.
  destruct (nth_error (trxs w) h) as [[d [| |]]|] eqn:E; try discriminate.
  intros H. inversion H. subst. unfold Database.trx_state. cbn [trxs with_committed with_trxs].
  rewrite Ht. now rewrite (nth_error_set_nth _ _ _ _ E).
Qed.

Lemma persist_ok_state req h w order w' :
  OrderController.store_persist req h w = (Ok order, w') ->
  Database.trx_state w' h = Some Committed.
Proof.
  unfold OrderController.store_persist, bind.
  destruct (Order.create _ _ h w) as [[o|e1] w1]; [|discriminate].
  destruct (match rq_items req with
            | Some (p :: rest) => Service.syncItems o h (p :: rest)
            | _ => ret tt
            end w1) as [[[]|e2] w2]; [|discriminate].
  destruct (Database.commit h w2) as [[[]|e3] w3] eqn:Hc; [|discriminate].
  unfold ret. intros H. inversion H. subst. eapply commit_ok_state. exact Hc.
Qed.

Lemma store_respond_trxs order w :
  trxs (snd (OrderController.store_respond order w)) = trxs w.
Proof.
  unfold OrderController.store_respond, Order.find, Transformer.item, bind, ret, throw.
  direct_step; [reflexivity|].
  destruct (Order.lookup (o_id order) (committed w)) as [found|]; [|reflexivity].
  direct_step; reflexivity.
Qed.

(** X9.  Every outcome of [store], whatever the store does to its
    calls.  When the transaction cannot be opened nothing is committed.
    Otherwise the handler leaves its transaction complete, never open:
    either rolled back, with the committed tables as they were, or
    committed, with exactly one new order and one item per entry of the
    request after the rows that were there (also when a later step of
    the handler fails).  An order is never committed without its items,
    nor items without their order. *)
Theorem store_commits_all_or_nothing req w :
  let after := snd (OrderController.store req w) in
  match fst (Database.beginTransaction w) with
  | Throw _ => committed after = committed w
  | Ok trx =>
      (Database.trx_state after trx = Some RolledBack /\ committed after = committed w)
      \/ (Database.trx_state after trx = Some Committed /\
          exists order,
            orders (committed after) = orders (committed w) ++ [order] /\
            order_items (committed after) =
              add_items (o_id order) (requested req) (order_items (committed w)))
  end.
Proof.
  intros after. unfold after, OrderController.store, bind.
  pose proof (beginTransaction_reads w) as Hbr.
  destruct (Database.beginTransaction w) as [[trx|e] w0] eqn:Hb; cbn [fst snd] in *;
    [|exact Hbr].
  destruct (beginTransaction_opens _ _ _ Hb) as (_ & Hc0 & Hopen).
  unfold try_catch, OrderController.store_try, bind.
  destruct (OrderController.store_persist req trx w0) as [[order|e] w1] eqn:Hp.
  - right. rewrite <- Hc0 in Hopen.
    destruct (persist_ok _ _ _ _ _ Hp Hopen) as (_ & Hords & Hitems).
    pose proof (persist_ok_state _ _ _ _ _ Hp) as Hst.
    pose proof (store_respond_reads order w1) as Hread.
    pose proof (store_respond_trxs order w1) as Htr.
    assert (Hst2 : Database.trx_state (snd (OrderController.store_respond order w1)) trx
                   = Some Committed).
    { unfold Database.trx_state in *. now rewrite Htr. }
    destruct (OrderController.store_respond order w1) as [[r|e] w2]; cbn [fst snd] in *.
    + split; [exact Hst2|]. exists order. rewrite <- Hread, Hords, Hitems, Hc0. auto.
    + unfold OrderController.store_catch, bind.
      rewrite (rollback_complete trx w2 Committed Hst2) by discriminate.
      cbn [snd]. split; [exact Hst2|].
      exists order. rewrite <- Hread, Hords, Hitems, Hc0. auto.
  - left. destruct (persist_refused _ _ _ _ _ Hp) as [Hc1 Hs1].
    assert (Ho : Database.trx_state w1 trx = Some Open).
    { rewrite Hs1. unfold Database.trx_state. now rewrite Hopen. }
    destruct (rollback_open _ _ Ho) as (w' & Hr & Hc' & Hs').
    unfold OrderController.store_catch, bind. rewrite Hr. unfold ret. cbn [snd].
    split; [exact Hs'|congruence].
Qed.

(** ** Every outcome of [update] *)

(** X10.  [update] never answers 400.  Whatever the store does, the
    handler either answers 200 or ends with the ReferenceError that its
    [catch] block raises on [trx]; in particular, when the store answers
    and no order has the key, the caller gets that exception and not the
    missing-row answer, no transaction having been opened. *)
Theorem update_answers_200_or_escapes id req w :
  ((exists r, fst (OrderController.update id req w) = Ok r /\ r_status r = 200)
   \/ fst (OrderController.update id req w) = Throw (ReferenceError "trx" "update"))
  /\ (faults w = [] -> Order.lookup id (committed w) = None ->
      OrderController.update id req w = (Throw (ReferenceError "trx" "update"), w)).
Proof.
  split.
  - destruct (OrderController.update id req w) as [[r|e] w'] eqn:Hu.
    + left. exists r. split; [reflexivity|].
      eapply update_never_answers_400. exact Hu.
    + right. unfold OrderController.update, try_catch in Hu.
      destruct (OrderController.update_try id req w) as [[r0|e0] w1]; [discriminate|].
      unfold OrderController.update_catch, throw in Hu. inversion Hu. reflexivity.
  - intros Hf HO. apply (update_failure_escapes id req w (ModelNotFound "Order") w).
    unfold OrderController.update_try, Order.findOrFail, Order.find, bind.
    rewrite (direct_read_quiet (Order.lookup id) w Hf), HO. reflexivity.
Qed.

Lemma update_answers_200_or_escapes_witness :
  OrderController.update 99 mark_paid (world_of shop) =
  (Throw (ReferenceError "trx" "update"), world_of shop).
Proof.
  apply (proj2 (update_answers_200_or_escapes 99 mark_paid (world_of shop)));
    reflexivity.
Defined.





(** ** Soft deletion of an order *)

Lemma effect_gets {A} (f : World -> A) : effect (gets f) eq.
Proof. intros w. reflexivity. Qed.

Lemma destroy_outcome (lookup : Z -> M OrderRow) id :
  effect (lookup id) eq ->
  effect (OrderController.destroy lookup id)
         (fun d d' => d' = d \/ exists o, d' = snd (Order.write o d)).
Proof.
  intros Hl. unfold OrderController.destroy, OrderController.destroy_try.
  apply effect_catch; [|intros; apply effect_ret].
  apply effect_bind_read; [now left|exact Hl|]. intros order.
  apply effect_bind_read; [now left|apply effect_gets|]. intros t.
  apply effect_bind_write.
  - unfold Order.save. intros w.
    destruct (effect_direct (Order.write (Order.merge_deleted_at order t)) w) as [H|H];
      [now left|right; eauto].
  - intros _. apply effect_bind_read; [reflexivity|apply effect_item|].
    intros; apply effect_ret.
Qed.

(** X12.  [destroy] is a soft delete.  For every lookup that only reads,
    and whatever the store does to the calls, the handler always answers,
    removes no row and changes no key of the orders table, and leaves the
    items, the coupons and the discounts alone: nothing cascades to the
    rows that belong to the order.  When the store answers and the lookup
    yields an order, its row is stamped with the current instant and
    sent back with status 200. *)
Theorem destroy_is_a_soft_delete (lookup : Z -> M OrderRow) id :
  effect (lookup id) eq ->
  (forall w,
      let d := committed w in
      let d' := committed (snd (OrderController.destroy lookup id w)) in
      (exists r, fst (OrderController.destroy lookup id w) = Ok r)
      /\ map o_id (orders d') = map o_id (orders d)
      /\ order_items d' = order_items d
      /\ coupons d' = coupons d
      /\ discounts d' = discounts d)
  /\ (forall w O,
        faults w = [] -> lookup id w = (Ok O, w) ->
        let stamped := Order.merge_deleted_at O (now w) in
        (exists view,
            fst (OrderController.destroy lookup id w) = Ok (mkResponse 200 (BodyOrder view))
            /\ v_order view = stamped)
        /\ orders (committed (snd (OrderController.destroy lookup id w))) =
             map (fun r => if o_id r =? o_id O then stamped else r) (orders (committed w))
        /\ o_deleted_at stamped = Some (now w)).
Proof.
  intros Hl. split.
  - intros w d d'. split.
    { unfold OrderController.destroy, try_catch.
      destruct (OrderController.destroy_try lookup id w) as [[r|e] w1];
        eexists; reflexivity. }
    destruct (destroy_outcome lookup id Hl w) as [H|[o H]]; fold d d' in H; rewrite H.
    + auto.
    + unfold Order.write. cbn [snd orders order_items coupons discounts set_orders].
      repeat split. rewrite map_map. apply map_ext. intros r.
      destruct (o_id r =? o_id o) eqn:E; [|reflexivity].
      apply Z.eqb_eq in E. now rewrite E.
  - intros w O Hf HO stamped.
    assert (Hrun : OrderController.destroy lookup id w =
                   (Ok (mkResponse 200 (BodyOrder (mkView stamped [] []))),
                    with_committed (snd (Order.write stamped (committed w))) w)).
    { unfold OrderController.destroy, OrderController.destroy_try, try_catch, bind.
      rewrite HO. unfold gets. fold stamped. unfold Order.save.
      rewrite direct_quiet by assumption. cbn [fst snd].
      unfold Transformer.item.
      rewrite (direct_read_quiet (Transformer.view false false stamped)) by assumption.
      reflexivity. }
    rewrite Hrun. cbn [fst snd]. split; [|split; reflexivity].
    eexists. split; reflexivity.
Qed.

Lemma destroy_is_a_soft_delete_witness :
  orders (committed (snd (OrderController.destroy Order.findOrFail 7
                            (world_of shop_with_items)))) =
    [mkOrder 7 (Some 5) (Some "pending") (Some 1000)]
  /\ order_items (committed (snd (OrderController.destroy Order.findOrFail 7
                                    (world_of shop_with_items)))) =
       order_items shop_with_items.
Proof.
  split.
  - apply (proj2 (destroy_is_a_soft_delete Order.findOrFail 7
                    (effect_findOrFail_order 7))
             (world_of shop_with_items) order7 eq_refl eq_refl).
  - apply (proj1 (destroy_is_a_soft_delete Order.findOrFail 7
                    (effect_findOrFail_order 7))
             (world_of shop_with_items)).
Defined.

(** ** Migrations *)

Lemma has_table_app name s s' :
  Schema.has_table name (s ++ s') = Schema.has_table name s || Schema.has_table name s'.
Proof. unfold Schema.has_table. apply existsb_app. Qed.

Lemma absent_not_named name s t :
  Schema.has_table name s = false -> In t s -> String.eqb (tbl_name t) name = false.
Proof.
  unfold Schema.has_table. intros H Hin.
  destruct (String.eqb (tbl_name t) name) eqn:E; [|reflexivity].
  rewrite <- H. symmetry. apply existsb_exists. eauto.
Qed.

Lemma closed_unreferenced name s t :
  closed s -> Schema.has_table name s = false -> In t s ->
  Schema.references name t = false.
Proof.
  intros Hc Habs Hin. unfold Schema.references.
  destruct (existsb _ (tbl_foreign t)) eqn:E; [|reflexivity].
  apply existsb_exists in E. destruct E as (fk & Hfk & Heq).
  apply String.eqb_eq in Heq. rewrite <- Habs, <- Heq. symmetry.
  now apply (Hc t fk).
Qed.

Lemma create_done t s :
  Schema.has_table (tbl_name t) s = false ->
  (forall fk, In fk (tbl_foreign t) ->
              Schema.has_table (fk_inTable fk) s = true \/ fk_inTable fk = tbl_name t) ->
  Schema.create t s = Done (s ++ [t]).
Proof.
  intros Habs Hfk. unfold Schema.create. rewrite Habs.
  rewrite find_all_false; [reflexivity|]. intros fk Hin.
  apply negb_false_iff, orb_true_iff.
  destruct (Hfk fk Hin) as [H|H]; [now left|right]. now apply String.eqb_eq.
Qed.

Lemma create_closed t s :
  closed s ->
  (forall fk, In fk (tbl_foreign t) ->
              Schema.has_table (fk_inTable fk) s = true \/ fk_inTable fk = tbl_name t) ->
  closed (s ++ [t]).
Proof.
  intros Hc Hfk t' fk Hin Hf. rewrite has_table_app. apply orb_true_iff.
  apply in_app_or in Hin. destruct Hin as [Hin|[<-|[]]].
  - left. now apply (Hc t' fk).
  - destruct (Hfk fk Hf) as [H|H]; [now left|right].
    simpl. rewrite orb_false_r. now apply String.eqb_eq.
Qed.

(** Dropping the table that was created last, in a schema that was
    closed before, gives that schema back. *)
Lemma drop_last t s :
  closed s -> Schema.has_table (tbl_name t) s = false ->
  Schema.drop (tbl_name t) (s ++ [t]) = Done s.
Proof.
  intros Hc Habs. unfold Schema.drop.
  rewrite has_table_app. simpl. rewrite String.eqb_refl, orb_true_r. simpl.
  rewrite find_all_false.
  - rewrite filter_app. simpl. rewrite String.eqb_refl. simpl. rewrite app_nil_r.
    f_equal. apply filter_all. intros x Hx.
    now rewrite (absent_not_named _ _ _ Habs Hx).
  - intros x Hx. apply in_app_or in Hx. destruct Hx as [Hx|[<-|[]]].
    + now rewrite (closed_unreferenced _ _ _ Hc Habs Hx), andb_false_r.
    + now rewrite String.eqb_refl.
Qed.

(** X13.  The tokens migration, on a closed schema without a [tokens]
    table: [up] adds the table at the end and keeps the schema closed,
    [down] then gives back exactly the schema from before; running [up]
    a second time is refused because the table exists, and [down]
    without the table is refused because it does not. *)
Theorem tokens_migration_round_trip s :
  closed s -> Schema.has_table "tokens" s = false ->
  Schema.executeActions TokensSchema.up s = Done (s ++ [TokensSchema.tokens])
  /\ closed (s ++ [TokensSchema.tokens])
  /\ Schema.executeActions TokensSchema.down (s ++ [TokensSchema.tokens]) = Done s
  /\ Schema.executeActions TokensSchema.up (s ++ [TokensSchema.tokens]) =
       Refused (TableExists "tokens")
  /\ Schema.executeActions TokensSchema.down s = Refused (NoSuchTable "tokens").
Proof.
  intros Hc Habs.
  assert (Hfk : forall fk, In fk (tbl_foreign TokensSchema.tokens) ->
                           Schema.has_table (fk_inTable fk) s = true \/
                           fk_inTable fk = tbl_name TokensSchema.tokens)
    by (intros fk []).
  split; [|split; [|split; [|split]]].
  - unfold TokensSchema.up, Schema.executeActions.
    now rewrite (create_done TokensSchema.tokens s Habs Hfk).
  - now apply create_closed.
  - unfold TokensSchema.down, Schema.executeActions.
    now rewrite (drop_last TokensSchema.tokens s Hc Habs
                  : Schema.drop "tokens" (s ++ [TokensSchema.tokens]) = Done s).
  - unfold TokensSchema.up, Schema.executeActions, Schema.create.
    rewrite has_table_app. simpl. now rewrite orb_true_r.
  - unfold TokensSchema.down, Schema.executeActions, Schema.drop.
    now rewrite Habs.
Qed.

Lemma tokens_migration_round_trip_witness :
  Schema.executeActions TokensSchema.down (catalogue ++ [TokensSchema.tokens]) =
  Done catalogue.
Proof.
  apply (tokens_migration_round_trip catalogue); [|reflexivity].
  intros t fk [<-|[<-|[]]] [].
Defined.

Lemma product_up_cases s :
  Schema.executeActions ProductSchema.up s =
  if Schema.has_table "products" s then Refused (TableExists "products")
  else if negb (Schema.has_table "images" s)
       then Refused (MissingReference "products" "images")
  else if Schema.has_table "image_product" s then Refused (TableExists "image_product")
  else if Schema.has_table "category_product" s
       then Refused (TableExists "category_product")
  else if negb (Schema.has_table "categories" s)
       then Refused (MissingReference "category_product" "categories")
  else Done (s ++ [ProductSchema.products; ProductSchema.image_product;
                   ProductSchema.category_product]).
Proof.
  unfold ProductSchema.up, Schema.executeActions, Schema.create.
  cbn [tbl_name tbl_foreign ProductSchema.products ProductSchema.image_product
       ProductSchema.category_product find fk_inTable].
  destruct (Schema.has_table "products" s) eqn:Hp;
    destruct (Schema.has_table "images" s) eqn:Hi;
    destruct (Schema.has_table "image_product" s) eqn:Hip;
    destruct (Schema.has_table "category_product" s) eqn:Hcp;
    destruct (Schema.has_table "categories" s) eqn:Hc;
    repeat (rewrite ?has_table_app, ?Hp, ?Hi, ?Hip, ?Hcp, ?Hc; cbn);
    try reflexivity.
  now rewrite <- !app_assoc.
Qed.



(** X15.  On a closed schema that has [images] and [categories] and
    none of the three product tables, [down] undoes [up]: it gives back
    exactly the schema from before, [up] having kept it closed.  The
    order of the drops matters: [down] takes the two join tables first,
    and the same drops in the reverse order are refused at once, since
    [image_product] still points into [products]. *)
Theorem product_migration_round_trip s :
  closed s ->
  Schema.has_table "images" s = true -> Schema.has_table "categories" s = true ->
  Schema.has_table "products" s = false -> Schema.has_table "image_product" s = false ->
  Schema.has_table "category_product" s = false ->
  let s' := s ++ [ProductSchema.products; ProductSchema.image_product;
                  ProductSchema.category_product] in
  Schema.executeActions ProductSchema.up s = Done s'
  /\ closed s'
  /\ Schema.executeActions ProductSchema.down s' = Done s
  /\ Schema.executeActions (rev ProductSchema.down) s' =
       Refused (StillReferenced "products" "image_product").
Proof.
  intros Hc Hi Hcat Hp Hip Hcp s'.
  set (s1 := s ++ [ProductSchema.products]).
  set (s2 := s1 ++ [ProductSchema.image_product]).
  assert (Hs' : s' = s2 ++ [ProductSchema.category_product]).
  { unfold s', s2, s1. now rewrite <- !app_assoc. }
  assert (Hc1 : closed s1).
  { apply create_closed; [exact Hc|]. intros fk [<-|[]]. now left. }
  assert (Hc2 : closed s2).
  { apply create_closed; [exact Hc1|]. intros fk [<-|[<-|[]]]; left; unfold s1;
      rewrite has_table_app; cbn; now rewrite ?Hi, ?orb_true_r. }
  assert (Hip1 : Schema.has_table "image_product" s1 = false).
  { unfold s1. rewrite has_table_app, Hip. reflexivity. }
  assert (Hcp2 : Schema.has_table "category_product" s2 = false).
  { unfold s2, s1. rewrite !has_table_app, Hcp. reflexivity. }
  split; [|split; [|split]].
  - rewrite product_up_cases, Hp, Hi, Hip, Hcp, Hcat. reflexivity.
  - rewrite Hs'. apply create_closed; [exact Hc2|].
    intros fk [<-|[<-|[]]]; left; unfold s2, s1; rewrite !has_table_app; cbn;
      now rewrite ?Hcat, ?orb_true_r.
  - rewrite Hs'. unfold ProductSchema.down, Schema.executeActions.
    rewrite (drop_last ProductSchema.category_product s2 Hc2 Hcp2
             : Schema.drop "category_product" (s2 ++ [ProductSchema.category_product])
               = Done s2).
    unfold s2.
    rewrite (drop_last ProductSchema.image_product s1 Hc1 Hip1
             : Schema.drop "image_product" (s1 ++ [ProductSchema.image_product])
               = Done s1).
    unfold s1.
    now rewrite (drop_last ProductSchema.products s Hc Hp
                 : Schema.drop "products" (s ++ [ProductSchema.products]) = Done s).
  - unfold ProductSchema.down. cbn [rev app Schema.executeActions]. unfold Schema.drop.
    unfold s'. rewrite has_table_app. cbn. rewrite orb_true_r. cbn.
    rewrite find_after_none; [reflexivity|].
    apply find_all_false. intros x Hx.
    now rewrite (closed_unreferenced _ _ _ Hc Hp Hx), andb_false_r.
Qed.

Lemma product_migration_round_trip_witness :
  Schema.executeActions ProductSchema.down
    (catalogue ++ [ProductSchema.products; ProductSchema.image_product;
                   ProductSchema.category_product]) = Done catalogue.
Proof.
  apply (product_migration_round_trip catalogue); try reflexivity.
  intros t fk [<-|[<-|[]]] [].
Defined.

(** ** What [applyDiscount] can write *)

(** X16.  Whatever the store does to the calls, [applyDiscount] answers
    with status 400 and never with the 200 it was written to send, and it
    touches no table but the discounts.  There it either changes nothing
    or appends one active row, under a new key, that links the order and
    the coupon of the request; it does so only after the validity check
    has passed and the stacking rule has allowed the coupon, on a pair
    that no row linked. *)
Theorem applyDiscount_writes_only_with_approval eligible id code w :
  let d := committed w in
  let d' := committed (snd (OrderController.applyDiscount eligible id code w)) in
  (exists error,
      fst (OrderController.applyDiscount eligible id code w) =
      Ok (mkResponse 400
            (BodyError "Error coupon clould not be apllied" (e_stack error))))
  /\ orders d' = orders d /\ order_items d' = order_items d /\ coupons d' = coupons d
  /\ (discounts d' = discounts d \/
      exists O C,
        Order.lookup id d = Some O /\
        find (fun c => String.eqb (c_code c) (toUpperCase code)) (coupons d) = Some C /\
        eligible d O C = true /\
        stacking_rule (List.length (Order.active_discounts (o_id O) d)) (c_recursive C) /\
        ~ linked (o_id O) (c_id C) d /\
        discounts d' =
          discounts d ++
          [mkDiscount (fresh_id (map d_id (discounts d))) (o_id O) (c_id C) None]).
Proof.
  intros d d'. split; [apply applyDiscount_always_400|].
  destruct (applyDiscount_outcome eligible id code w)
    as [H|(O & C & HO & HC & He & Hs & Hnone & H)]; fold d d' in H; rewrite H.
  - auto.
  - repeat split. right. exists O, C. fold d in HO, HC, He, Hs, Hnone.
    split; [exact HO|]. split; [exact HC|]. split; [exact He|].
    split; [now apply canApplyToOrder_spec|].
    split; [|reflexivity].
    unfold linked. rewrite Hnone. intros Hne. now apply Hne.
Qed.

(** ** Creating, then showing *)

Lemma store_quiet_world req w :
  faults w = [] ->
  exists r w',
    OrderController.store req w = (Ok r, w') /\ faults w' = [] /\
    orders (committed w') =
      orders (committed w) ++
      [mkOrder (fresh_id (map o_id (orders (committed w))))
               (rq_user_id req) (rq_status req) None] /\
    order_items (committed w') =
      add_items (fresh_id (map o_id (orders (committed w)))) (requested req)
                (order_items (committed w)).
Proof.
  intros Hf. destruct (beginTransaction_quiet w Hf) as (w0 & Hb & Hf0).
  destruct (beginTransaction_opens _ _ _ Hb) as (_ & Hc0 & Hopen).
  set (h := List.length (trxs w)) in *.
  destruct (query_quiet h (Order.insert (rq_user_id req) (rq_status req)) w0 _ Hf0 Hopen)
    as (w1 & Hq & Hf1 & Hd1 & _).
  set (o := fst (Order.insert (rq_user_id req) (rq_status req) (committed w))) in *.
  assert (Hsync : exists w2 d2,
    (match rq_items req with
     | Some (p :: rest) => Service.syncItems o h (p :: rest)
     | _ => ret tt
     end) w1 = (Ok tt, w2) /\ faults w2 = [] /\
    nth_error (trxs w2) h = Some (mkTrx d2 Open) /\
    Order.lookup (o_id o) d2 = Some o).
  { destruct (rq_items req) as [[|p rest]|] eqn:Hi.
    - exists w1. eexists. repeat split; eauto. apply lookup_inserted.
    - destruct (syncItems_quiet o h (p :: rest) w1 _ Hf1 Hd1) as (w2 & d2 & Hs & Hf2 & Hd2).
      exists w2, d2. repeat split; auto.
      destruct (syncItems_ok _ _ _ _ _ _ Hs Hd1) as (d2' & Hd2' & _ & Ho2 & _).
      rewrite Hd2 in Hd2'. injection Hd2' as <-.
      unfold Order.lookup. rewrite Ho2. apply lookup_inserted.
    - exists w1. eexists. repeat split; eauto. apply lookup_inserted. }
  destruct Hsync as (w2 & d2 & Hs & Hf2 & Hd2 & Hlook).
  destruct (commit_quiet h w2 d2 Hf2 Hd2) as (w3 & Hc & Hf3 & Hc3).
  assert (Hp : OrderController.store_persist req h w0 = (Ok o, w3)).
  { unfold OrderController.store_persist, Order.create, bind. now rewrite Hq, Hs, Hc. }
  rewrite <- Hc0 in Hopen.
  destruct (persist_ok _ _ _ _ _ Hp Hopen) as (Ho & Hords & Hitems).
  exists (mkResponse 201 (BodyOrder (Transformer.view true false o d2))), w3.
  split; [|split; [exact Hf3|]].
  - unfold OrderController.store, bind. rewrite Hb.
    unfold try_catch, OrderController.store_try, bind. rewrite Hp.
    unfold OrderController.store_respond, Order.find, bind.
    rewrite (direct_read_quiet (Order.lookup (o_id o)) w3 Hf3), Hc3, Hlook.
    unfold Transformer.item.
    rewrite (direct_read_quiet (Transformer.view true false o) w3 Hf3), Hc3. reflexivity.
  - rewrite Hords, Hitems, Hc0, Ho. cbn [o_id]. rewrite Hc0. auto.
Qed.

Lemma items_of_added key items l :
  (forall row, In row l -> oi_order_id row <> key) ->
  map oi_payload (Order.items_of key (mkDb [] (add_items key items l) [] [])) = items.
Proof.
  intros Hl. destruct (add_items_appends key items l) as (news & -> & Hm & Hall).
  unfold Order.items_of. cbn [order_items]. rewrite filter_app.
  rewrite (filter_none _ l), (filter_all _ news); [exact Hm| |].
  - intros x Hx. rewrite Forall_forall in Hall. apply Z.eqb_eq. now apply Hall.
  - intros x Hx. apply Z.eqb_neq. now apply Hl.
Qed.

(** X17.  Creating, then showing.  When the store answers and every
    item row belongs to an order of the store, the order that [store]
    has created is found by [show] under its new key: the answer is 200
    and carries the order with the [user_id] and [status] of the request,
    not deleted, and with exactly the requested items in the requested
    order. *)
Theorem created_order_is_shown req w :
  faults w = [] ->
  (forall row, In row (order_items (committed w)) ->
               In (oi_order_id row) (map o_id (orders (committed w)))) ->
  let key := fresh_id (map o_id (orders (committed w))) in
  let created := snd (OrderController.store req w) in
  exists view,
    fst (OrderController.show key created) = Ok (mkResponse 200 (BodyOrder view))
    /\ v_order view = mkOrder key (rq_user_id req) (rq_status req) None
    /\ map oi_payload (v_items view) = requested req.
Proof.
  intros Hf Hint key created.
  destruct (store_quiet_world req w Hf) as (r & w' & Hrun & Hf' & Hords & Hitems).
  unfold created. rewrite Hrun. cbn [snd]. fold key in Hords, Hitems.
  assert (Hlook : Order.lookup key (committed w') =
                  Some (mkOrder key (rq_user_id req) (rq_status req) None)).
  { unfold Order.lookup. rewrite Hords. apply find_appended_key. apply fresh_id_new. }
  eexists. split; [|split].
  - unfold OrderController.show, OrderController.show_try, try_catch, bind.
    rewrite (findOrFail_order_quiet _ _ _ Hf' Hlook). unfold Transformer.item.
    rewrite (direct_read_quiet
               (Transformer.view true true
                  (mkOrder key (rq_user_id req) (rq_status req) None)) w' Hf').
    reflexivity.
  - reflexivity.
  - cbn [Transformer.view v_items o_id].
    unfold Order.items_of. rewrite Hitems.
    apply (items_of_added key (requested req) (order_items (committed w))).
    intros row Hrow E. apply (fresh_id_new (map o_id (orders (committed w)))).
    fold key. rewrite <- E. now apply Hint.
Qed.

Lemma created_order_is_shown_witness :
  exists view,
    fst (OrderController.show 8 (snd (OrderController.store two_items
                                        (world_of shop_with_items)))) =
      Ok (mkResponse 200 (BodyOrder view))
    /\ v_order view = mkOrder 8 (Some 5) (Some "pending") None
    /\ map oi_payload (v_items view) = [mkItem "P1" 2; mkItem "P2" 1].
Proof.
  apply (created_order_is_shown two_items (world_of shop_with_items) eq_refl).
  intros row [<-|[<-|[<-|[]]]]; left; reflexivity.
Defined.

(** ** Listing after a soft delete *)




